(** * Tabular preprocessing helpers of [src/utils.py]

    A shallow embedding of the five functions of [utils.py]
    ([find_missing_values], [drop_columns_with_high_missing_values],
    [separate_categorical_numerical], [label_encode_categorical_variables],
    [drop_highly_correlated_variables]) and of the part of pandas and
    scikit-learn they call.

    - A [DataFrame] is an object on a heap and the functions take and return
      references, so that "the caller's table is not modified" is a statement
      about the heap.
    - Python raising is the [Raise] outcome of the monad [M].
    - float64 is Rocq's primitive binary64 [float]: [0/0] is [nan], every
      comparison with [nan] is [false].

    The library calls are modelled as pandas 2 and scikit-learn 1 document
    and implement them: [corr] converts every column to float64, text
    through Python's [float], [nancorr] computes Pearson's coefficient over
    the rows where both values are finite and mirrors each entry,
    [LabelEncoder] sorts the distinct values with the missing marker last
    and returns the codes as numpy builds the array.  An int64 cell is an
    integer; its conversion to float64 is the nearest binary64, ties to
    even, over the whole range from [-2^63] on. *)

From Stdlib Require Import ZArith Floats Uint63 Sorted.
From stdpp Require Import gmap strings list.

Local Open Scope Z_scope.

(** ** float64 *)

Module F64.

(** int64 -> float64 conversion, as numpy does when an integer Series is
    divided or a frame is converted with [dtype=float]: the binary64
    nearest to the integer, ties to even.  [binary_normalize] is the
    rounding by which the Standard Library specifies the conversion of its
    own 63-bit integers; here it is applied to the integer itself, so that
    the sign and [-2^63] are covered. *)
Definition of_Z (z : Z) : float :=
  SF2Prim (binary_normalize prec emax z 0 false).

Definition hundred : float := Eval cbv in of_Z 100.

(** Python [x > y], [x >= y], [x < y], [x <= y], [x != y] on floats. *)
Definition gtb (x y : float) : bool := PrimFloat.ltb y x.
Definition geb (x y : float) : bool := PrimFloat.leb y x.
Definition ltb (x y : float) : bool := PrimFloat.ltb x y.
Definition leb (x y : float) : bool := PrimFloat.leb x y.
Definition neb (x y : float) : bool := negb (PrimFloat.eqb x y).

(** numpy's [isfinite]. *)
Definition isfinite (x : float) : bool := PrimFloat.is_finite x.

(** The order numpy sorts float64 by: IEEE order, with [nan] after every
    number; [-0.0] and [0.0] compare equal. *)
Definition cmp (x y : float) : comparison :=
  match PrimFloat.is_nan x, PrimFloat.is_nan y with
  | true, true => Eq
  | true, false => Gt
  | false, true => Lt
  | false, false =>
      match PrimFloat.compare x y with
      | FLt => Lt
      | FGt => Gt
      | FEq | FNotComparable => Eq
      end
  end.

(** The IEEE order through its specification: [key] sends the
    specification of a float to a triple of integers whose lexicographic
    order [lex3] is the order of [cmp] ([nan] has the largest key). *)

Definition key (f : spec_float) : Z * Z * Z :=
  match f with
  | S754_nan => (3, 0, 0)
  | S754_infinity true => (-2, 0, 0)
  | S754_infinity false => (2, 0, 0)
  | S754_zero _ => (0, 0, 0)
  | S754_finite true m e => (-1, - e, Z.neg m)
  | S754_finite false m e => (1, e, Z.pos m)
  end.

Definition lex3 (a b : Z * Z * Z) : comparison :=
  match a, b with
  | (a1, a2, a3), (b1, b2, b3) =>
      match a1 ?= b1 with
      | Eq => match a2 ?= b2 with Eq => a3 ?= b3 | c => c end
      | c => c
      end
  end.

Definition sf_is_nan (f : spec_float) : bool :=
  match f with S754_nan => true | _ => false end.

End F64.

(** ** Tables *)

(** A column is an array of one dtype.  [float64] marks a missing value by
    [nan]; [object] and [category] columns hold text, with [None] for a
    missing value; [int64] and [bool] columns have no missing marker. *)
Inductive column :=
| Float64 (xs : list float)
| Int64 (xs : list Z)
| Bool (xs : list bool)
| Object (xs : list (option string))
| Category (xs : list (option string)).

Definition column_len (c : column) : nat :=
  match c with
  | Float64 xs => length xs
  | Int64 xs => length xs
  | Bool xs => length xs
  | Object xs | Category xs => length xs
  end.

(** [Series.isnull()] *)
Definition isnull (c : column) : list bool :=
  match c with
  | Float64 xs => PrimFloat.is_nan <$> xs
  | Int64 xs => (fun _ => false) <$> xs
  | Bool xs => (fun _ => false) <$> xs
  | Object xs | Category xs => (fun o => bool_decide (o = None)) <$> xs
  end.

(** [select_dtypes] matches ['object'] and ['category'] by dtype. *)
Definition is_object_or_category (c : column) : bool :=
  match c with
  | Object _ | Category _ => true
  | Float64 _ | Int64 _ | Bool _ => false
  end.

(** A frame: the length of its row index and its named columns, in order. *)
Record DataFrame := mkDataFrame {
  df_len : nat;
  df_columns : list (string * column)
}.

Definition column_names (df : DataFrame) : list string := (df_columns df).*1.

(** What every pandas frame satisfies: the columns have the length of the
    index.  Column labels are taken to be unique, as the functions below
    address columns by label. *)
Definition well_formed (df : DataFrame) : Prop :=
  Forall (fun nc => column_len nc.2 = df_len df) (df_columns df) /\
  NoDup (column_names df).

#[global] Instance well_formed_dec df : Decision (well_formed df).
Proof. unfold well_formed. apply _. Defined.

(** A Series indexed by column labels. *)
Definition Series (A : Type) : Type := list (string * A).

Definition series_map {A B} (f : A -> B) (s : Series A) : Series B :=
  (fun kv => (kv.1, f kv.2)) <$> s.

(** [s[cond(s)].index] *)
Definition series_index_where {A} (cond : A -> bool) (s : Series A) : list string :=
  (filter (fun kv => cond kv.2 = true) s).*1.

Definition sum_Z (l : list Z) : Z := foldr Z.add 0 l.

(** [df.isnull().sum()]: per column, the number of missing cells. *)
Definition isnull_sum (df : DataFrame) : Series Z :=
  (fun nc => (nc.1, sum_Z (Z.b2z <$> isnull nc.2))) <$> df_columns df.

(** [s.sum()] *)
Definition series_sum (s : Series Z) : Z := sum_Z s.*2.

(** [(s / n) * 100] on an int64 Series: float64 true division, so [0/0] is
    [nan] and [k/0] is [inf]; nothing raises. *)
Definition percent_of (total : Z) (n : Z) : float :=
  PrimFloat.mul (PrimFloat.div (F64.of_Z total) (F64.of_Z n)) F64.hundred.

(** [df.drop(columns=labels)] as a value: the columns not in [labels]. *)
Definition drop_columns (labels : list string) (df : DataFrame) : DataFrame :=
  mkDataFrame (df_len df)
    (filter (fun nc => nc.1 ∉ labels) (df_columns df)).

(** [df.select_dtypes(include=['object','category'])] and
    [df.select_dtypes(exclude=['object','category'])] as values. *)
Definition select_dtypes (include : bool) (df : DataFrame) : DataFrame :=
  mkDataFrame (df_len df)
    (filter (fun nc => is_object_or_category nc.2 = include) (df_columns df)).

(** [df[label] = col]: replaces the column where the label exists, appends
    it otherwise. *)
Fixpoint assign_column (label : string) (col : column)
    (cols : list (string * column)) : list (string * column) :=
  match cols with
  | [] => [(label, col)]
  | (n, c) :: rest =>
      if decide (n = label) then (n, col) :: rest
      else (n, c) :: assign_column label col rest
  end.

(** [df[label]]: the first column of that label. *)
Fixpoint lookup_label {A} (label : string) (cols : list (string * A))
    : option A :=
  match cols with
  | [] => None
  | (n, c) :: rest =>
      if decide (n = label) then Some c else lookup_label label rest
  end.

(** ** The heap and the monad of Python code *)

Inductive exn :=
| KeyError (label : string)
| ValueError
| InvalidReference.

Inductive outcome (A : Type) :=
| Ok (a : A)
| Raise (e : exn).
Arguments Ok {A} a.
Arguments Raise {A} e.

(** Frames live on a heap; a reference is a position in it.  Allocation
    appends, so a fresh object never aliases an older one. *)
Abbreviation ref := nat.
Abbreviation heap := (list DataFrame).

Definition M (A : Type) : Type := heap -> outcome A * heap.

Definition ret {A} (a : A) : M A := fun h => (Ok a, h).

Definition bind {A B} (m : M A) (k : A -> M B) : M B :=
  fun h =>
    match m h with
    | (Ok a, h') => k a h'
    | (Raise e, h') => (Raise e, h')
    end.

Definition raise {A} (e : exn) : M A := fun h => (Raise e, h).

Declare Scope py_scope.
Delimit Scope py_scope with py.
Notation "x <- m ;; k" := (bind m (fun x => k))
  (at level 100, m at next level, right associativity) : py_scope.
Notation "m ;;; k" := (bind m (fun _ => k))
  (at level 100, right associativity) : py_scope.
Local Open Scope py_scope.

Definition deref (r : ref) : M DataFrame :=
  fun h => match h !! r with
           | Some df => (Ok df, h)
           | None => (Raise InvalidReference, h)
           end.

Definition alloc (df : DataFrame) : M ref :=
  fun h => (Ok (length h), h ++ [df]).

Definition store (r : ref) (df : DataFrame) : M unit :=
  fun h => (Ok tt, <[r := df]> h).

(** [for x in xs: body(x)] *)
Fixpoint for_each {A} (xs : list A) (body : A -> M unit) : M unit :=
  match xs with
  | [] => ret tt
  | x :: rest => body x ;;; for_each rest body
  end.

(** *** pandas methods on frame objects *)

Module pd.

(** [len(df)] *)
Definition len (df : ref) : M Z :=
  d <- deref df ;; ret (Z.of_nat (df_len d)).

(** [df.columns] *)
Definition columns (df : ref) : M (list string) :=
  d <- deref df ;; ret (column_names d).

(** [df.isnull().sum()] *)
Definition isnull_sum (df : ref) : M (Series Z) :=
  d <- deref df ;; ret (isnull_sum d).

(** [df.copy()]: a new object with the same contents. *)
Definition copy (df : ref) : M ref :=
  d <- deref df ;; alloc d.

(** [df.drop(columns=labels)]: a new object; a label that is not a column
    raises [KeyError]. *)
Definition drop (df : ref) (labels : list string) : M ref :=
  d <- deref df ;;
  match filter (fun l => l ∉ column_names d) labels with
  | [] => alloc (drop_columns labels d)
  | l :: _ => raise (KeyError l)
  end.

(** [df.select_dtypes(include=...)], [df.select_dtypes(exclude=...)]: a new
    object. *)
Definition select_dtypes (df : ref) (include : bool) : M ref :=
  d <- deref df ;; alloc (select_dtypes include d).

(** [df[label]] *)
Definition getitem (df : ref) (label : string) : M column :=
  d <- deref df ;;
  match lookup_label label (df_columns d) with
  | Some c => ret c
  | None => raise (KeyError label)
  end.

(** [df[label] = col]: mutates the object [df] refers to; an array whose
    length is not that of the index raises [ValueError]. *)
Definition setitem (df : ref) (label : string) (col : column) : M unit :=
  d <- deref df ;;
  if decide (column_len col = df_len d) then
    store df (mkDataFrame (df_len d) (assign_column label col (df_columns d)))
  else raise ValueError.

End pd.

(** ** [find_missing_values] *)

(** The function returns either a message or a frame indexed by the column
    labels with the two columns [Total] and [Percentage]. *)
Inductive missing_values :=
| Message (s : string)
| Report (rows : list (string * (Z * float))).

(** [pd.concat([total, percent], axis=1, keys=["Total", "Percentage"])]:
    the two Series aligned on their common index. *)
Definition concat_axis1 (total : Series Z) (percent : Series float)
    : list (string * (Z * float)) :=
  zip_with (fun t p => (t.1, (t.2, p.2))) total percent.

(** [utils.py], lines 21-30. *)
Definition find_missing_values (dataframe : ref) : M missing_values :=
  total_missing <- pd.isnull_sum dataframe ;;
  if series_sum total_missing =? 0 then
    ret (Message "There are no missing values in the DataFrame.")
  else
    n <- pd.len dataframe ;;
    let percent_missing := series_map (fun t => percent_of t n) total_missing in
    let missing_values_df := concat_axis1 total_missing percent_missing in
    let missing_values_df :=
      filter (fun row => 0 < row.2.1) missing_values_df in
    ret (Report missing_values_df).

(** ** [drop_columns_with_high_missing_values] *)

(** The default [threshold=0.7], as the binary64 nearest to 0.7. *)
Definition default_threshold : float := 0x1.6666666666666p-1%float.

(** [utils.py], lines 48-53.  The assignment [dataframe = dataframe.drop(...)]
    rebinds the local name to the new frame. *)
Definition drop_columns_with_high_missing_values
    (dataframe : ref) (threshold : float) : M ref :=
  total_missing <- pd.isnull_sum dataframe ;;
  n <- pd.len dataframe ;;
  let percent_missing := series_map (fun t => percent_of t n) total_missing in
  let columns_to_drop :=
    series_index_where (fun p => F64.gtb p threshold) percent_missing in
  dataframe' <- pd.drop dataframe columns_to_drop ;;
  ret dataframe'.

(** ** [separate_categorical_numerical] *)

(** [utils.py], lines 71-74. *)
Definition separate_categorical_numerical (dataframe : ref) : M (ref * ref) :=
  categorical_columns <- pd.select_dtypes dataframe true ;;
  numerical_columns <- pd.select_dtypes dataframe false ;;
  ret (categorical_columns, numerical_columns).

(** ** [label_encode_categorical_variables] *)

Module sklearn.

Section LabelEncoder.
Context {A : Type} (cmp : A -> A -> comparison).

(** [classes_ = np.unique(y)]: the distinct values, sorted. *)
Fixpoint insert_unique (x : A) (l : list A) : list A :=
  match l with
  | [] => [x]
  | y :: l' =>
      match cmp x y with
      | Lt => x :: l
      | Eq => l
      | Gt => y :: insert_unique x l'
      end
  end.

Definition unique (xs : list A) : list A := foldr insert_unique [] xs.

(** The code of a value: its position in [classes_]. *)
Fixpoint index_in (x : A) (classes_ : list A) : Z :=
  match classes_ with
  | [] => 0
  | y :: rest =>
      match cmp x y with
      | Eq => 0
      | _ => 1 + index_in x rest
      end
  end.

Definition fit_transform_with (y : list A) : list Z :=
  let classes_ := unique y in
  (fun x => index_in x classes_) <$> y.

End LabelEncoder.

(** The order of text cells: strings by code point, the missing marker
    after every string. *)
Definition text_cmp (a b : option string) : comparison :=
  match a, b with
  | None, None => Eq
  | None, Some _ => Gt
  | Some _, None => Lt
  | Some s, Some t => String.compare s t
  end.

(** [np.array(codes)] of a Python list of integers: int64, but float64
    when the list is empty. *)
Definition array_of_codes (codes : list Z) : column :=
  match codes with
  | [] => Float64 []
  | _ :: _ => Int64 codes
  end.

(** [LabelEncoder().fit_transform(series)].  For numbers and booleans the
    codes are the inverse that [np.unique] returns, an int64 array.  Text
    (a column of dtype object, or a category column, which reaches the
    encoder as an object array) is encoded in Python, value by value, and
    the list of codes is turned into an array: int64 again, except for a
    column without rows, where the array of the empty list is float64. *)
Definition fit_transform (y : column) : column :=
  match y with
  | Float64 xs => Int64 (fit_transform_with F64.cmp xs)
  | Int64 xs => Int64 (fit_transform_with Z.compare xs)
  | Bool xs => Int64 (fit_transform_with Bool.compare xs)
  | Object xs | Category xs => array_of_codes (fit_transform_with text_cmp xs)
  end.

End sklearn.

(** [utils.py], lines 91-99.  The one [LabelEncoder] object is fitted anew
    by every [fit_transform], so its state does not reach the result. *)
Definition label_encode_categorical_variables
    (dataframe : ref) (categorical_columns : list string) : M ref :=
  encoded_dataframe <- pd.copy dataframe ;;
  for_each categorical_columns (fun column =>
    cols <- pd.columns encoded_dataframe ;;
    if decide (column ∈ cols) then
      y <- pd.getitem encoded_dataframe column ;;
      pd.setitem encoded_dataframe column (sklearn.fit_transform y)
    else ret tt) ;;;
  ret encoded_dataframe.

(** ** [drop_highly_correlated_variables] *)

(** pandas' [nancorr]: Pearson's coefficient over the rows where both
    values are finite, by Welford's running sums; [nan] when no row
    qualifies or a variance is zero. *)
Module nancorr.

Record state := mkState {
  nobs : Z;
  meanx : float;
  meany : float;
  ssqdm_x : float;
  ssqdm_y : float;
  covxy : float
}.

Definition init : state := mkState 0 0 0 0 0 0.

Definition step (st : state) (v : float * float) : state :=
  let '(vx, vy) := v in
  if F64.isfinite vx && F64.isfinite vy then
    let nobs' := nobs st + 1 in
    let dx := (vx - meanx st)%float in
    let dy := (vy - meany st)%float in
    let meanx' := (meanx st + 1 / F64.of_Z nobs' * dx)%float in
    let meany' := (meany st + 1 / F64.of_Z nobs' * dy)%float in
    mkState nobs' meanx' meany'
      (ssqdm_x st + (vx - meanx') * dx)%float
      (ssqdm_y st + (vy - meany') * dy)%float
      (covxy st + (vx - meanx') * dy)%float
  else st.

Definition minp : Z := 1.

Definition pair (xs ys : list float) : float :=
  let st := foldl step init (zip xs ys) in
  if nobs st <? minp then PrimFloat.nan
  else
    let divisor := PrimFloat.sqrt (ssqdm_x st * ssqdm_y st)%float in
    if F64.neb divisor 0 then (covxy st / divisor)%float else PrimFloat.nan.

(** [result[xi, yi] = result[yi, xi] = ...] for [yi <= xi]: the entry at
    [(i, j)] is computed once, from the column of larger position first. *)
Definition entry (mat : list (list float)) (i j : nat) : float :=
  let xi := Nat.max i j in
  let yi := Nat.min i j in
  pair (mat !!! xi) (mat !!! yi).

End nancorr.

(** A square table labelled by column names on both axes, stored by
    column: [mx_columns m !! j] is the column of label [mx_labels m !! j]. *)
Record matrix (A : Type) := mkMatrix {
  mx_labels : list string;
  mx_columns : list (list A)
}.
Arguments mkMatrix {A} _ _.
Arguments mx_labels {A} _.
Arguments mx_columns {A} _.

Definition matrix_map {A B} (f : A -> B) (m : matrix A) : matrix B :=
  mkMatrix (mx_labels m) ((fun col : list A => f <$> col) <$> mx_columns m).

(** [m[col]]: the column of that label. *)
Definition matrix_getitem {A} (m : matrix A) (col : string) : list A :=
  default [] (lookup_label col (zip (mx_labels m) (mx_columns m))).

(** [index[bools]]: the labels at the positions that hold [True]. *)
Definition index_where (index : list string) (bools : list bool) : list string :=
  (filter (fun lb => lb.2 = true) (zip index bools)).*1.

(** Python's [float(s)] on a string: the number the text spells, or [None]
    where [float] raises [ValueError].  The conversion is a parameter: what
    follows is defined, and proved, for every such function. *)
Class FloatOfStr := float_of_str : string -> option float.

Section Corr.
Context {conv : FloatOfStr}.

(** [df.to_numpy(dtype=float, na_value=nan)], one array per column: a text
    cell is converted by [float], which raises [ValueError] on text that
    does not spell a number; the missing marker becomes [nan]. *)
Definition text_to_float (o : option string) : outcome float :=
  match o with
  | None => Ok PrimFloat.nan
  | Some s =>
      match float_of_str s with
      | Some x => Ok x
      | None => Raise ValueError
      end
  end.

Fixpoint all_ok {A} (l : list (outcome A)) : outcome (list A) :=
  match l with
  | [] => Ok []
  | Ok a :: rest =>
      match all_ok rest with
      | Ok r => Ok (a :: r)
      | Raise e => Raise e
      end
  | Raise e :: _ => Raise e
  end.

Definition column_to_float (c : column) : outcome (list float) :=
  match c with
  | Float64 xs => Ok xs
  | Int64 xs => Ok (F64.of_Z <$> xs)
  | Bool xs => Ok ((fun b : bool => if b then 1%float else 0%float) <$> xs)
  | Object xs | Category xs => all_ok (text_to_float <$> xs)
  end.

Definition to_numpy_float (df : DataFrame) : outcome (list (list float)) :=
  all_ok ((fun nc => column_to_float nc.2) <$> df_columns df).

(** [df.corr().abs()] as a value. *)
Definition corr_abs_of (labels : list string) (mat : list (list float))
    : matrix float :=
  let K := length mat in
  mkMatrix labels
    ((fun j => (fun i => PrimFloat.abs (nancorr.entry mat i j)) <$> seq 0 K)
       <$> seq 0 K).

(** [df.corr().abs()] *)
Definition pd_corr_abs (df : ref) : M (matrix float) :=
  d <- deref df ;;
  match to_numpy_float d with
  | Ok mat => ret (corr_abs_of (column_names d) mat)
  | Raise e => raise e
  end.

(** [utils.py], lines 116-131.  [high_corr_vars] is a Python set. *)
Definition drop_highly_correlated_variables
    (dataframe : ref) (threshold : float) : M ref :=
  corr_matrix <- pd_corr_abs dataframe ;;
  let mask := matrix_map (fun x => F64.geb x threshold) corr_matrix in
  let high_corr_vars : gset string :=
    foldl (fun high_corr_vars col =>
             let correlated_columns :=
               index_where (mx_labels mask) (matrix_getitem mask col) in
             foldl (fun high_corr_vars col2 =>
                      if decide (col ≠ col2) then high_corr_vars ∪ {[col2]}
                      else high_corr_vars)
                   high_corr_vars correlated_columns)
          ∅ (mx_labels mask) in
  reduced_dataframe <- pd.drop dataframe (elements high_corr_vars) ;;
  ret reduced_dataframe.

End Corr.

(** * Vocabulary of the statements *)

(** ** Missing cells *)

(** The number of missing cells of a column. *)
Definition missing_count (c : column) : Z :=
  Z.of_nat (length (filter (fun b => b = true) (isnull c))).

(** Some cell of the frame is the missing marker. *)
Definition has_missing (df : DataFrame) : Prop :=
  exists nc, nc ∈ df_columns df /\ true ∈ isnull nc.2.

(** The missing percentage of a column: count / row count x 100. *)
Definition missing_percentage (df : DataFrame) (c : column) : float :=
  percent_of (missing_count c) (Z.of_nat (df_len df)).

(** One row per column with a missing cell, in column order. *)
Definition missing_rows (df : DataFrame) : list (string * (Z * float)) :=
  (fun nc => (nc.1, (missing_count nc.2, missing_percentage df nc.2)))
    <$> filter (fun nc => 0 < missing_count nc.2) (df_columns df).

(** The labels [drop_columns_with_high_missing_values] passes to [drop]. *)
Definition high_missing_labels (df : DataFrame) (threshold : float) : list string :=
  series_index_where (fun p => F64.gtb p threshold)
    (series_map (fun t => percent_of t (Z.of_nat (df_len df))) (isnull_sum df)).

(** The reading of C4 as it is written: a retained column is at or below
    the threshold, a dropped one is above it. *)
Definition split_at_threshold (T T' : DataFrame) (t : float) : Prop :=
  forall nc, nc ∈ df_columns T ->
    (nc ∈ df_columns T' -> F64.leb (missing_percentage T nc.2) t = true) /\
    (nc ∉ df_columns T' -> F64.gtb (missing_percentage T nc.2) t = true).

(** ** Label encodings *)

(** The orders the encoder sorts by are total orders up to [Eq]. *)
Class CmpOrder {A : Type} (cmp : A -> A -> comparison) : Prop := {
  cmp_antisym x y : cmp y x = CompOpp (cmp x y);
  cmp_trans x y z : cmp x y = Lt -> cmp y z = Lt -> cmp x z = Lt;
  cmp_eq_compat x y z : cmp x y = Eq -> cmp x z = cmp y z
}.

(** What it means for [codes] to be the label encoding of [xs]: one code
    per cell, ordered as the values are (so equal values have equal codes
    and different values different codes), and the codes are exactly the
    numbers [0 .. k-1] for some [k]. *)
Definition label_encoding {A} (cmp : A -> A -> comparison)
    (xs : list A) (codes : list Z) : Prop :=
  length codes = length xs /\
  (forall i j x y cx cy,
      xs !! i = Some x -> xs !! j = Some y ->
      codes !! i = Some cx -> codes !! j = Some cy ->
      (cx ?= cy) = cmp x y) /\
  (forall c, c ∈ codes -> 0 <= c /\ forall k, 0 <= k < c -> k ∈ codes).

(** [codes] is the label encoding of the column, in the order of its
    dtype. *)
Definition encodes (c : column) (codes : list Z) : Prop :=
  match c with
  | Float64 xs => label_encoding F64.cmp xs codes
  | Int64 xs => label_encoding Z.compare xs codes
  | Bool xs => label_encoding Bool.compare xs codes
  | Object xs | Category xs => label_encoding sklearn.text_cmp xs codes
  end.

(** The array [c'] holds the codes of the column [c]: it is the int64
    array of the codes or, when [c] is a text column without rows, the
    empty float64 array. *)
Definition holds_codes (c c' : column) (codes : list Z) : Prop :=
  c' = Int64 codes \/
  (is_object_or_category c = true /\ column_len c = 0%nat /\
   c' = Float64 []).

(** The column [nc'] is the column [nc] encoded if its label is in [S],
    and [nc] itself otherwise. *)
Definition encoded_column (S : list string)
    (nc nc' : string * column) : Prop :=
  nc'.1 = nc.1 /\
  if decide (nc.1 ∈ S) then
    exists codes, encodes nc.2 codes /\ holds_codes nc.2 nc'.2 codes
  else nc'.2 = nc.2.

(** The frame [E] is [T] with the columns labelled in [S] encoded and the
    others as they were. *)
Definition encoded_columns (S : list string) (T E : DataFrame) : Prop :=
  df_len E = df_len T /\
  Forall2 (encoded_column S) (df_columns T) (df_columns E).

(** ** Correlations *)

(** The absolute correlation of the columns at positions [i] and [j], as
    [df.corr().abs()] holds it. *)
Definition abs_corr (mat : list (list float)) (i j : nat) : float :=
  PrimFloat.abs (nancorr.entry mat i j).

(** The labels [drop_highly_correlated_variables] collects. *)
Definition high_corr_labels (names : list string) (mat : list (list float))
    (threshold : float) : gset string :=
  let mask :=
    matrix_map (fun x => F64.geb x threshold) (corr_abs_of names mat) in
  foldl (fun high_corr_vars col =>
           let correlated_columns :=
             index_where (mx_labels mask) (matrix_getitem mask col) in
           foldl (fun high_corr_vars col2 =>
                    if decide (col ≠ col2) then high_corr_vars ∪ {[col2]}
                    else high_corr_vars)
                 high_corr_vars correlated_columns)
        ∅ (mx_labels mask).

(** The reading of C3 as it is written: two retained columns have an
    absolute correlation strictly below the threshold. *)
Definition retained_pairs_below (T T' : DataFrame)
    (mat : list (list float)) (t : float) : Prop :=
  forall i j a b,
    i ≠ j ->
    column_names T !! i = Some a ->
    column_names T !! j = Some b ->
    a ∈ column_names T' -> b ∈ column_names T' ->
    F64.ltb (abs_corr mat i j) t = true.

(** ** Tables of the examples *)

(** A well-formed table without rows or without columns: no cell at all. *)
Definition degenerate (T : DataFrame) : Prop :=
  df_len T = 0%nat \/ df_columns T = [].

(** The table of the end-to-end example: A = [1, 2, missing, 4],
    B = [x, y, x, z]. *)
Definition example_missing : DataFrame :=
  mkDataFrame 4
    [("A"%string, Float64 [1%float; 2%float; PrimFloat.nan; 4%float]);
     ("B"%string, Object [Some "x"; Some "y"; Some "x"; Some "z"]%string)].

(** A table with no rows and one column. *)
Definition example_no_rows : DataFrame :=
  mkDataFrame 0 [("A"%string, Int64 [])].

(** The table of the end-to-end example: A = [1, 2, 3, 4],
    B = [2, 4, 6, 8]. *)
Definition example_correlated : DataFrame :=
  mkDataFrame 4
    [("A"%string, Int64 [1; 2; 3; 4]); ("B"%string, Int64 [2; 4; 6; 8])].

(** A table with a constant column: A = [1, 1, 1], B = [1, 2, 3]. *)
Definition example_constant : DataFrame :=
  mkDataFrame 3
    [("A"%string, Int64 [1; 1; 1]); ("B"%string, Int64 [1; 2; 3])].

(** A table without rows, with a number column and a text column. *)
Definition example_empty : DataFrame :=
  mkDataFrame 0 [("A"%string, Int64 []); ("B"%string, Object [])].

(** A table with a single column: A = [1, 2, 3]. *)
Definition example_single : DataFrame :=
  mkDataFrame 3 [("A"%string, Int64 [1; 2; 3])].

(** A table that holds the least int64:
    A = [-2^63, 1, 2, 3, 4, 5, 6], B = [0, 1, 2, 3, 4, 5, 6]. *)
Definition example_int64_min : DataFrame :=
  mkDataFrame 7
    [("A"%string, Int64 [- 2 ^ 63; 1; 2; 3; 4; 5; 6]);
     ("B"%string, Int64 [0; 1; 2; 3; 4; 5; 6])].

(** A table with numbers written as text: A = ["1", "2", "3", "4"],
    B = [2, 4, 6, 8]. *)
Definition example_numeric_text : DataFrame :=
  mkDataFrame 4
    [("A"%string, Object [Some "1"; Some "2"; Some "3"; Some "4"]%string);
     ("B"%string, Int64 [2; 4; 6; 8])].

(** A conversion to run the examples with: it reads the text of an
    unsigned decimal integer, as [float] does, and takes no other text for
    a number. *)
Fixpoint decimal_digits (acc : Z) (s : string) : option Z :=
  match s with
  | EmptyString => Some acc
  | String a rest =>
      let d := Z.of_N (Ascii.N_of_ascii a) - 48 in
      if (0 <=? d) && (d <=? 9) then decimal_digits (10 * acc + d) rest
      else None
  end.

Definition decimal : FloatOfStr :=
  fun s =>
    match s with
    | EmptyString => None
    | String _ _ => F64.of_Z <$> decimal_digits 0 s
    end.

(** * Properties *)

(** ** float64 comparisons *)

Module F64Facts.
Import F64.

Lemma lex3_refl a : lex3 a a = Eq.
Proof. destruct a as [[a1 a2] a3]; simpl. by rewrite !Z.compare_refl. Qed.

Lemma lex3_antisym a b : lex3 b a = CompOpp (lex3 a b).
Proof.
  destruct a as [[a1 a2] a3], b as [[b1 b2] b3]; simpl.
  rewrite (Z.compare_antisym a1 b1), (Z.compare_antisym a2 b2),
    (Z.compare_antisym a3 b3).
  destruct (a1 ?= b1), (a2 ?= b2), (a3 ?= b3); reflexivity.
Qed.

Lemma lex3_Lt a b :
  lex3 a b = Lt <->
  (a.1.1 < b.1.1 \/ (a.1.1 = b.1.1 /\
    (a.1.2 < b.1.2 \/ (a.1.2 = b.1.2 /\ a.2 < b.2)))).
Proof.
  destruct a as [[a1 a2] a3], b as [[b1 b2] b3]; simpl.
  destruct (Z.compare_spec a1 b1), (Z.compare_spec a2 b2),
    (Z.compare_spec a3 b3); split; intros; try discriminate; try lia; auto.
Qed.

Lemma lex3_Eq a b : lex3 a b = Eq <-> a = b.
Proof.
  destruct a as [[a1 a2] a3], b as [[b1 b2] b3]; simpl.
  destruct (Z.compare_spec a1 b1), (Z.compare_spec a2 b2),
    (Z.compare_spec a3 b3); split; intros He; try discriminate;
    try (inversion He; lia); subst; reflexivity.
Qed.

Lemma lex3_trans a b c : lex3 a b = Lt -> lex3 b c = Lt -> lex3 a c = Lt.
Proof. rewrite !lex3_Lt. lia. Qed.

Lemma SFcompare_key x y :
  sf_is_nan x = false -> sf_is_nan y = false ->
  SFcompare x y = Some (lex3 (key x) (key y)).
Proof.
  destruct x as [[|]|[|]| |[|] mx ex], y as [[|]|[|]| |[|] my ey];
    simpl; try discriminate; try reflexivity; intros _ _.
  rewrite Z.compare_opp, (Z.compare_antisym ey ex).
  destruct (ey ?= ex); simpl; reflexivity.
Qed.

Lemma is_nan_spec x : PrimFloat.is_nan x = sf_is_nan (Prim2SF x).
Proof.
  unfold PrimFloat.is_nan. rewrite FloatAxioms.eqb_spec. unfold SFeqb.
  destruct (sf_is_nan (Prim2SF x)) eqn:Hn.
  - destruct (Prim2SF x); try discriminate. reflexivity.
  - rewrite (SFcompare_key _ _ Hn Hn), lex3_refl. reflexivity.
Qed.

(** [cmp] as the lexicographic order of keys: [nan] has the largest key. *)
Lemma cmp_key x y : F64.cmp x y = lex3 (key (Prim2SF x)) (key (Prim2SF y)).
Proof.
  unfold F64.cmp. rewrite !is_nan_spec, FloatAxioms.compare_spec.
  destruct (sf_is_nan (Prim2SF x)) eqn:Hx, (sf_is_nan (Prim2SF y)) eqn:Hy.
  - destruct (Prim2SF x), (Prim2SF y); try discriminate. reflexivity.
  - destruct (Prim2SF x); try discriminate.
    destruct (Prim2SF y) as [[|]|[|]| |[|] ? ?]; try discriminate; reflexivity.
  - destruct (Prim2SF y); try discriminate.
    destruct (Prim2SF x) as [[|]|[|]| |[|] ? ?]; try discriminate; reflexivity.
  - rewrite (SFcompare_key _ _ Hx Hy). simpl.
    destruct (lex3 _ _); reflexivity.
Qed.

(** A float that is not above another is at or below it, unless one of
    the two is [nan]. *)
Lemma not_gt_le x y :
  F64.gtb x y = false ->
  F64.leb x y = true \/ PrimFloat.is_nan x = true \/ PrimFloat.is_nan y = true.
Proof.
  unfold F64.gtb, F64.leb. rewrite FloatAxioms.ltb_spec, FloatAxioms.leb_spec, !is_nan_spec.
  unfold SFltb, SFleb.
  destruct (sf_is_nan (Prim2SF x)) eqn:Hx; [auto|].
  destruct (sf_is_nan (Prim2SF y)) eqn:Hy; [auto|].
  rewrite (SFcompare_key _ _ Hy Hx), (SFcompare_key _ _ Hx Hy).
  rewrite (lex3_antisym (key (Prim2SF x)) (key (Prim2SF y))).
  destruct (lex3 _ _); simpl; intros; try discriminate; auto.
Qed.

Lemma not_ge_lt x y :
  F64.geb x y = false ->
  F64.ltb x y = true \/ PrimFloat.is_nan x = true \/ PrimFloat.is_nan y = true.
Proof.
  unfold F64.geb, F64.ltb. rewrite FloatAxioms.ltb_spec, FloatAxioms.leb_spec, !is_nan_spec.
  unfold SFltb, SFleb.
  destruct (sf_is_nan (Prim2SF x)) eqn:Hx; [auto|].
  destruct (sf_is_nan (Prim2SF y)) eqn:Hy; [auto|].
  rewrite (SFcompare_key _ _ Hy Hx), (SFcompare_key _ _ Hx Hy).
  rewrite (lex3_antisym (key (Prim2SF x)) (key (Prim2SF y))).
  destruct (lex3 _ _); simpl; intros; try discriminate; auto.
Qed.

Lemma gt_not_le x y : F64.gtb x y = true -> F64.leb x y = false.
Proof.
  unfold F64.gtb, F64.leb. rewrite FloatAxioms.ltb_spec, FloatAxioms.leb_spec. unfold SFltb, SFleb.
  destruct (sf_is_nan (Prim2SF x)) eqn:Hx;
    [destruct (Prim2SF x); try discriminate; by destruct (Prim2SF y)|].
  destruct (sf_is_nan (Prim2SF y)) eqn:Hy;
    [destruct (Prim2SF y); try discriminate; by destruct (Prim2SF x)|].
  rewrite (SFcompare_key _ _ Hy Hx), (SFcompare_key _ _ Hx Hy).
  rewrite (lex3_antisym (key (Prim2SF x)) (key (Prim2SF y))).
  destruct (lex3 _ _); simpl; intros; try discriminate; auto.
Qed.

Lemma nan_not_gt y : F64.gtb PrimFloat.nan y = false.
Proof.
  unfold F64.gtb. rewrite FloatAxioms.ltb_spec. unfold SFltb.
  change (Prim2SF PrimFloat.nan) with S754_nan. by destruct (Prim2SF y).
Qed.

Lemma nan_not_ge y : F64.geb PrimFloat.nan y = false.
Proof.
  unfold F64.geb. rewrite FloatAxioms.leb_spec. unfold SFleb.
  change (Prim2SF PrimFloat.nan) with S754_nan. by destruct (Prim2SF y).
Qed.


End F64Facts.

(** The conversion of integers at the ends of int64 and where binary64
    has to round: [-2^63] is exact, [2^63 - 1] rounds up to [2^63], and
    [2^53 + 1] lies halfway and goes to the even neighbour [2^53]. *)
Example of_Z_int64 :
  F64.of_Z (- 2 ^ 63) = (-0x1p63)%float /\
  F64.of_Z (2 ^ 63 - 1) = 0x1p63%float /\
  F64.of_Z (2 ^ 53 + 1) = 0x1p53%float /\
  F64.of_Z (-3) = (-3)%float /\
  F64.of_Z 0 = 0%float.
Proof. repeat split; reflexivity. Qed.

(** ** Running the pandas methods on a heap *)

Section Run.
Context (h : heap) (r : ref) (T : DataFrame) (Hr : h !! r = Some T).

Lemma deref_run : deref r h = (Ok T, h).
Proof using Hr. unfold deref. by rewrite Hr. Qed.

Lemma len_run : pd.len r h = (Ok (Z.of_nat (df_len T)), h).
Proof using Hr. unfold pd.len, bind. by rewrite deref_run. Qed.

Lemma columns_run : pd.columns r h = (Ok (column_names T), h).
Proof using Hr. unfold pd.columns, bind. by rewrite deref_run. Qed.

Lemma isnull_sum_run : pd.isnull_sum r h = (Ok (isnull_sum T), h).
Proof using Hr. unfold pd.isnull_sum, bind. by rewrite deref_run. Qed.

Lemma copy_run : pd.copy r h = (Ok (length h), h ++ [T]).
Proof using Hr. unfold pd.copy, bind. by rewrite deref_run. Qed.

Lemma select_dtypes_run b :
  pd.select_dtypes r b h = (Ok (length h), h ++ [select_dtypes b T]).
Proof using Hr. unfold pd.select_dtypes, bind. by rewrite deref_run. Qed.

Lemma drop_run labels :
  Forall (fun l => l ∈ column_names T) labels ->
  pd.drop r labels h = (Ok (length h), h ++ [drop_columns labels T]).
Proof using Hr.
  intros Hin. unfold pd.drop, bind. rewrite deref_run.
  replace (filter _ labels) with (@nil string); [done|].
  symmetry. induction Hin as [|l ls Hl _ IH]; [done|].
  rewrite filter_cons. destruct (decide _); [done|apply IH].
Qed.

End Run.

Lemma bind_run {A B} (m : M A) (k : A -> M B) h a h' :
  m h = (Ok a, h') -> bind m k h = k a h'.
Proof. intros Hm. unfold bind. by rewrite Hm. Qed.

Lemma lookup_alloc (h : heap) (T : DataFrame) : (h ++ [T]) !! length h = Some T.
Proof. by rewrite lookup_app_r, Nat.sub_diag. Qed.

Lemma lookup_old (h : heap) (l : list DataFrame) r (T : DataFrame) :
  h !! r = Some T -> (h ++ l) !! r = Some T.
Proof. intros. by apply lookup_app_l_Some. Qed.

(** ** Missing cells *)

Lemma sum_b2z (l : list bool) :
  sum_Z (Z.b2z <$> l) = Z.of_nat (length (filter (fun b => b = true) l)).
Proof.
  unfold sum_Z. induction l as [|b l IH]; [done|].
  rewrite fmap_cons, filter_cons. cbn [foldr]. rewrite IH.
  destruct b; simpl; [|done]. lia.
Qed.

Lemma isnull_sum_counts (df : DataFrame) :
  isnull_sum df = (fun nc => (nc.1, missing_count nc.2)) <$> df_columns df.
Proof.
  unfold isnull_sum. apply list_fmap_ext. intros _ [n c] _. simpl.
  by rewrite sum_b2z.
Qed.

Lemma missing_count_nonneg c : 0 <= missing_count c.
Proof. unfold missing_count. lia. Qed.

Lemma missing_count_pos c : 0 < missing_count c <-> true ∈ isnull c.
Proof.
  unfold missing_count. induction (isnull c) as [|b l IH]; simpl.
  - split; [lia|]. by intros ?%elem_of_nil.
  - rewrite filter_cons, elem_of_cons. destruct b; simpl.
    + split; [auto|lia].
    + rewrite IH. split; [by right|]. by intros [[=]|?].
Qed.

Lemma sum_Z_zero (l : list Z) :
  Forall (fun z => 0 <= z) l -> (sum_Z l = 0 <-> Forall (fun z => z = 0) l).
Proof.
  unfold sum_Z. induction 1 as [|z l Hz Hl IH]; cbn [foldr].
  - split; [constructor|done].
  - assert (0 <= foldr Z.add 0 l) as Hs.
    { clear IH. induction Hl; cbn [foldr]; lia. }
    rewrite Forall_cons. rewrite <-IH. lia.
Qed.

Lemma series_sum_zero (df : DataFrame) :
  series_sum (isnull_sum df) = 0 <-> ~ has_missing df.
Proof.
  rewrite isnull_sum_counts. unfold series_sum, has_missing.
  rewrite <-list_fmap_compose, sum_Z_zero.
  - rewrite Forall_fmap, Forall_forall. split.
    + intros Hall (nc & Hin & Hm). apply missing_count_pos in Hm.
      specialize (Hall nc Hin). simpl in Hall. lia.
    + intros Hn nc Hin. simpl.
      destruct (decide (0 < missing_count nc.2)) as [Hp|Hp].
      * exfalso. apply Hn. exists nc. by rewrite <-missing_count_pos.
      * pose proof (missing_count_nonneg nc.2). lia.
  - rewrite Forall_fmap, Forall_forall. intros nc _. apply missing_count_nonneg.
Qed.

Lemma filter_fmap_iff {A B} (f : A -> B)
    (P : B -> Prop) `{!forall y, Decision (P y)}
    (Q : A -> Prop) `{!forall x, Decision (Q x)} (l : list A) :
  (forall x, P (f x) <-> Q x) ->
  filter P (f <$> l) = f <$> filter Q l.
Proof.
  intros HPQ. induction l as [|x l IH]; [done|].
  rewrite fmap_cons, !filter_cons.
  destruct (decide (P (f x))) as [HP|HP], (decide (Q x)) as [HQ|HQ];
    rewrite ?fmap_cons, IH; try done; exfalso; apply HPQ in HP || apply HPQ in HQ; done.
Qed.

Lemma report_rows (df : DataFrame) :
  filter (fun row : string * (Z * float) => 0 < row.2.1)
    (concat_axis1 (isnull_sum df)
       (series_map (fun t => percent_of t (Z.of_nat (df_len df)))
          (isnull_sum df)))
  = missing_rows df.
Proof.
  unfold concat_axis1, series_map, missing_rows, missing_percentage.
  rewrite zip_with_fmap_r, zip_with_diag, isnull_sum_counts, <-list_fmap_compose.
  by apply filter_fmap_iff.
Qed.

(** C5. [find_missing_values] never raises and leaves the heap as it is.
    It returns the message exactly when no cell of the table is the missing
    marker; otherwise it returns the report that has one row per column
    with a missing cell, in column order, holding the count and
    count / row count x 100.  On A = [1, 2, missing, 4], B = [x, y, x, z]
    the report is the single row A: (1, 25.0). *)
Theorem find_missing_values_report :
  (forall (h : heap) (r : ref) (T : DataFrame),
      h !! r = Some T ->
      exists res,
        find_missing_values r h = (Ok res, h) /\
        ((exists msg, res = Message msg) <-> ~ has_missing T) /\
        (has_missing T -> res = Report (missing_rows T))) /\
  find_missing_values 0%nat [example_missing]
  = (Ok (Report [("A"%string, (1, 25%float))]), [example_missing]).
Proof.
  split; [|reflexivity].
  intros h r T Hr. unfold find_missing_values, bind.
  rewrite (isnull_sum_run h r T Hr).
  destruct (series_sum (isnull_sum T) =? 0) eqn:Hs.
  - apply Z.eqb_eq, series_sum_zero in Hs.
    eexists. split; [reflexivity|]. split; [|done]. split; eauto.
  - apply Z.eqb_neq in Hs. rewrite series_sum_zero in Hs.
    rewrite (len_run h r T Hr). unfold ret. rewrite report_rows.
    eexists. split; [reflexivity|]. split; [|done].
    split; [intros [? [=]]|done].
Qed.

Lemma find_missing_values_report_witness :
  [example_missing] !! 0%nat = Some example_missing /\
  exists res,
    find_missing_values 0%nat [example_missing] = (Ok res, [example_missing]) /\
    ((exists msg, res = Message msg) <-> ~ has_missing example_missing) /\
    (has_missing example_missing -> res = Report (missing_rows example_missing)).
Proof.
  split; [reflexivity|].
  apply (proj1 find_missing_values_report [example_missing] 0%nat example_missing).
  reflexivity.
Defined.

(** ** Dropping columns by missing percentage *)

Lemma high_missing_labels_filter df t :
  high_missing_labels df t
  = (filter (fun nc => F64.gtb (missing_percentage df nc.2) t = true)
       (df_columns df)).*1.
Proof.
  unfold high_missing_labels, series_index_where, series_map.
  rewrite isnull_sum_counts, <-list_fmap_compose.
  rewrite (filter_fmap_iff _ (fun kv : string * float => F64.gtb kv.2 t = true)
    (fun nc => F64.gtb (missing_percentage df nc.2) t = true)) by done.
  by rewrite <-list_fmap_compose.
Qed.

Lemma elem_of_high_missing_labels df t name :
  name ∈ high_missing_labels df t <->
  exists c, (name, c) ∈ df_columns df /\
            F64.gtb (missing_percentage df c) t = true.
Proof.
  rewrite high_missing_labels_filter, list_elem_of_fmap. split.
  - intros ([n c] & -> & [Hp Hin]%list_elem_of_filter). eauto.
  - intros (c & Hin & Hp). exists (name, c). split; [done|].
    by apply list_elem_of_filter.
Qed.

Lemma drop_columns_with_high_missing_values_run h r T t :
  h !! r = Some T ->
  drop_columns_with_high_missing_values r t h
  = (Ok (length h), h ++ [drop_columns (high_missing_labels T t) T]).
Proof.
  intros Hr. unfold drop_columns_with_high_missing_values, bind.
  rewrite (isnull_sum_run h r T Hr), (len_run h r T Hr).
  fold (high_missing_labels T t). rewrite (drop_run h r T Hr); [done|].
  apply Forall_forall. intros l (c & Hin & _)%elem_of_high_missing_labels.
  apply list_elem_of_fmap. by exists (l, c).
Qed.

(** In a frame with unique labels a label determines its column. *)
Lemma NoDup_names_inj (cols : list (string * column)) n c c' :
  NoDup cols.*1 -> (n, c) ∈ cols -> (n, c') ∈ cols -> c = c'.
Proof.
  intros Hnd H1 H2.
  apply list_elem_of_lookup in H1 as [i Hi], H2 as [j Hj].
  assert (i = j) as ->.
  { eapply NoDup_lookup; [exact Hnd| |]; rewrite list_lookup_fmap.
    - by rewrite Hi.
    - by rewrite Hj. }
  congruence.
Qed.

Lemma elem_of_drop_columns labels df nc :
  nc ∈ df_columns (drop_columns labels df) <->
  nc ∈ df_columns df /\ nc.1 ∉ labels.
Proof. unfold drop_columns; simpl. rewrite list_elem_of_filter. tauto. Qed.

(** C4, on a table without rows: the only column is retained although its
    percentage, [0/0 * 100 = nan], is not at or below the threshold. *)
Lemma split_at_threshold_fails_without_rows :
  drop_columns_with_high_missing_values 0%nat default_threshold [example_no_rows]
  = (Ok 1%nat, [example_no_rows; example_no_rows]) /\
  ~ split_at_threshold example_no_rows example_no_rows default_threshold.
Proof.
  split; [reflexivity|].
  intros Hs. destruct (Hs ("A"%string, Int64 [])) as [Hle _]; [by left|].
  specialize (Hle ltac:(by left)). vm_compute in Hle. discriminate.
Qed.

(** C4, amended.  [drop_columns_with_high_missing_values] returns a new
    frame with the rows of the input and, in their order, the columns whose
    missing percentage (count / row count x 100, in float64) is not
    strictly greater than the threshold: a column is dropped exactly when
    its percentage is [> t] on the percentage scale, whatever [t] is (so
    [> 0.7], not 70%, with the default).  A retained column has a
    percentage [<= t] unless the percentage or the threshold is [nan], as
    is the percentage [0/0] of a table without rows. *)
Theorem drop_columns_with_high_missing_values_split :
  forall (h : heap) (r : ref) (T : DataFrame) (t : float),
    h !! r = Some T ->
    well_formed T ->
    exists T',
      drop_columns_with_high_missing_values r t h
      = (Ok (length h), h ++ [T']) /\
      df_len T' = df_len T /\
      df_columns T' `sublist_of` df_columns T /\
      forall nc, nc ∈ df_columns T ->
        let p := missing_percentage T nc.2 in
        (nc ∈ df_columns T' <-> F64.gtb p t = false) /\
        (nc ∉ df_columns T' <-> F64.gtb p t = true) /\
        (nc ∈ df_columns T' ->
           F64.leb p t = true \/
           PrimFloat.is_nan p = true \/ PrimFloat.is_nan t = true) /\
        (nc ∉ df_columns T' -> F64.leb p t = false).
Proof.
  intros h r T t Hr [_ Hnd].
  exists (drop_columns (high_missing_labels T t) T).
  split; [by apply drop_columns_with_high_missing_values_run|].
  split; [done|]. split; [apply sublist_filter|].
  intros [n c] Hin p. subst p. simpl. set (p := missing_percentage T c).
  assert (n ∈ high_missing_labels T t <-> F64.gtb p t = true) as Hlab.
  { rewrite elem_of_high_missing_labels. split.
    - intros (c' & Hin' & Hp). unfold p.
      by rewrite (NoDup_names_inj _ _ _ _ Hnd Hin Hin').
    - intros Hp. eauto. }
  assert ((n, c) ∈ df_columns (drop_columns (high_missing_labels T t) T)
          <-> F64.gtb p t = false) as Hkeep.
  { rewrite elem_of_drop_columns. simpl. rewrite Hlab.
    destruct (F64.gtb p t); split; try done. by intros [_ []]. }
  split; [done|]. rewrite Hkeep. split; [by destruct (F64.gtb p t)|].
  split.
  - intros Hp. apply (F64Facts.not_gt_le _ _ Hp).
  - intros Hp. apply F64Facts.gt_not_le. by destruct (F64.gtb p t).
Qed.

Lemma example_missing_well_formed : well_formed example_missing.
Proof. compute_done. Qed.

Lemma drop_columns_with_high_missing_values_split_witness :
  [example_missing] !! 0%nat = Some example_missing /\
  well_formed example_missing /\
  exists T',
    drop_columns_with_high_missing_values 0%nat default_threshold
      [example_missing]
    = (Ok 1%nat, [example_missing] ++ [T']) /\
    df_len T' = 4%nat.
Proof.
  split; [reflexivity|]. split; [exact example_missing_well_formed|].
  destruct (drop_columns_with_high_missing_values_split
              [example_missing] 0%nat example_missing default_threshold
              eq_refl example_missing_well_formed) as (T' & Hrun & Hlen & _).
  exists T'. split; [exact Hrun|exact Hlen].
Defined.

(** ** Splitting by dtype *)

Lemma select_dtypes_well_formed b T :
  well_formed T -> well_formed (select_dtypes b T).
Proof.
  intros [Hlen Hnd]. split; simpl.
  - rewrite Forall_forall in Hlen |- *.
    intros nc [_ Hin]%list_elem_of_filter. by apply Hlen.
  - eapply sublist_NoDup; [exact Hnd|].
    apply fmap_sublist, sublist_filter.
Qed.

Example separate_example :
  separate_categorical_numerical 0%nat [example_missing]
  = (Ok (1%nat, 2%nat),
     [example_missing;
      mkDataFrame 4
        [("B"%string, Object [Some "x"; Some "y"; Some "x"; Some "z"]%string)];
      mkDataFrame 4
        [("A"%string, Float64 [1%float; 2%float; PrimFloat.nan; 4%float])]]).
Proof. reflexivity. Qed.

(** C6. [separate_categorical_numerical] returns two new frames that
    partition the columns of the table: the object and category columns go
    to the first, all others to the second; together they hold every
    column exactly once, no label is in both, each keeps the columns in
    their original relative order with their cells as they were, and both
    have the row count of the table. *)
Theorem separate_categorical_numerical_partition :
  forall (h : heap) (r : ref) (T : DataFrame),
    h !! r = Some T ->
    well_formed T ->
    exists C N,
      separate_categorical_numerical r h
      = (Ok (length h, S (length h)), h ++ [C; N]) /\
      df_len C = df_len T /\ df_len N = df_len T /\
      (forall nc, nc ∈ df_columns C <->
                  nc ∈ df_columns T /\ is_object_or_category nc.2 = true) /\
      (forall nc, nc ∈ df_columns N <->
                  nc ∈ df_columns T /\ is_object_or_category nc.2 = false) /\
      df_columns C ++ df_columns N ≡ₚ df_columns T /\
      column_names C ## column_names N /\
      df_columns C `sublist_of` df_columns T /\
      df_columns N `sublist_of` df_columns T /\
      well_formed C /\ well_formed N.
Proof.
  intros h r T Hr Hwf.
  exists (select_dtypes true T), (select_dtypes false T).
  assert (df_columns (select_dtypes true T) ++ df_columns (select_dtypes false T)
          ≡ₚ df_columns T) as Hperm.
  { simpl.
    rewrite (list_filter_iff (fun nc => is_object_or_category nc.2 = false)
               (fun nc => ~ is_object_or_category nc.2 = true)).
    - apply filter_app_complement.
    - intros nc. by destruct (is_object_or_category nc.2). }
  split.
  { unfold separate_categorical_numerical, bind.
    rewrite (select_dtypes_run h r T Hr).
    rewrite (select_dtypes_run (h ++ [select_dtypes true T]) r T);
      [|by apply lookup_old].
    unfold ret. by rewrite length_app, Nat.add_1_r, <-app_assoc. }
  split; [done|]. split; [done|].
  split; [intros nc; simpl; rewrite list_elem_of_filter; tauto|].
  split; [intros nc; simpl; rewrite list_elem_of_filter; tauto|].
  split; [exact Hperm|]. split.
  { destruct Hwf as [_ Hnd]. unfold column_names in *.
    rewrite <-Hperm, fmap_app in Hnd. by apply NoDup_app in Hnd as (_ & Hd & _). }
  split; [apply sublist_filter|]. split; [apply sublist_filter|].
  split; by apply select_dtypes_well_formed.
Qed.

Lemma separate_categorical_numerical_partition_witness :
  [example_missing] !! 0%nat = Some example_missing /\
  well_formed example_missing /\
  exists C N,
    separate_categorical_numerical 0%nat [example_missing]
    = (Ok (1%nat, 2%nat), [example_missing] ++ [C; N]) /\
    df_columns C ++ df_columns N ≡ₚ df_columns example_missing.
Proof.
  split; [reflexivity|]. split; [exact example_missing_well_formed|].
  destruct (separate_categorical_numerical_partition
              [example_missing] 0%nat example_missing
              eq_refl example_missing_well_formed)
    as (C & N & Hrun & _ & _ & _ & _ & Hperm & _).
  exists C, N. split; [exact Hrun|exact Hperm].
Defined.

(** ** Label encoding *)

Section Encoding.
Context {A : Type} (cmp : A -> A -> comparison) `{!CmpOrder cmp}.

Local Abbreviation lt_cmp := (fun a b => cmp a b = Lt).
Local Abbreviation sorted := (StronglySorted lt_cmp).
Local Abbreviation has x cl := (exists x', x' ∈ cl /\ cmp x x' = Eq).

Lemma cmp_refl x : cmp x x = Eq.
Proof. pose proof (cmp_antisym x x). by destruct (cmp x x). Qed.

Lemma cmp_eq_sym x y : cmp x y = Eq -> cmp y x = Eq.
Proof. intros H. by rewrite (cmp_antisym x y), H. Qed.

Lemma cmp_eq_compat_r x y z : cmp x y = Eq -> cmp z x = cmp z y.
Proof.
  intros H. rewrite (cmp_antisym x z), (cmp_antisym y z).
  by rewrite (cmp_eq_compat x y z H).
Qed.

Lemma elem_of_insert_unique x y l :
  y ∈ sklearn.insert_unique cmp x l -> y = x \/ y ∈ l.
Proof.
  induction l as [|z l IH]; simpl.
  - intros ->%list_elem_of_singleton. by left.
  - destruct (cmp x z).
    + by right.
    + intros [->|Hy]%elem_of_cons; [by left|by right].
    + intros [->|Hy]%elem_of_cons; [right; by left|].
      destruct (IH Hy) as [->|Hin]; [by left|right; by right].
Qed.

Lemma insert_unique_keeps x y l :
  y ∈ l -> y ∈ sklearn.insert_unique cmp x l.
Proof.
  induction l as [|z l IH]; simpl; [by intros ?%elem_of_nil|].
  destruct (cmp x z); [done|by right|].
  intros [->|Hy]%elem_of_cons; [by left|right; by apply IH].
Qed.

Lemma insert_unique_has x l : has x (sklearn.insert_unique cmp x l).
Proof.
  induction l as [|z l IH]; simpl.
  - exists x. split; [by left|apply cmp_refl].
  - destruct (cmp x z) eqn:Hxz.
    + exists z. split; [by left|done].
    + exists x. split; [by left|apply cmp_refl].
    + destruct IH as (x' & Hin & Heq). exists x'. split; [by right|done].
Qed.

Lemma insert_unique_sorted x l :
  sorted l -> sorted (sklearn.insert_unique cmp x l).
Proof.
  induction 1 as [|z l Hs IH Hz]; simpl.
  - repeat constructor.
  - destruct (cmp x z) eqn:Hxz.
    + by constructor.
    + constructor; [by constructor|]. constructor; [done|].
      eapply Forall_impl; [exact Hz|]. intros w Hw. simpl in *.
      by apply (cmp_trans x z w).
    + constructor; [done|]. apply Forall_forall.
      intros w [->|Hw]%elem_of_insert_unique.
      * by rewrite (cmp_antisym x z), Hxz.
      * rewrite Forall_forall in Hz. by apply Hz.
Qed.

Lemma unique_sorted xs : sorted (sklearn.unique cmp xs).
Proof.
  induction xs as [|x xs IH]; simpl; [constructor|].
  by apply insert_unique_sorted.
Qed.

Lemma unique_has x xs : x ∈ xs -> has x (sklearn.unique cmp xs).
Proof.
  induction xs as [|z xs IH]; [by intros ?%elem_of_nil|].
  intros [->|Hx]%elem_of_cons; simpl; [apply insert_unique_has|].
  destruct (IH Hx) as (x' & Hin & Heq). exists x'.
  split; [by apply insert_unique_keeps|done].
Qed.

Lemma unique_sub y xs : y ∈ sklearn.unique cmp xs -> y ∈ xs.
Proof.
  induction xs as [|z xs IH]; simpl; [done|].
  intros [->|Hy]%elem_of_insert_unique; [by left|right; by apply IH].
Qed.

Lemma index_in_nonneg x cl : 0 <= sklearn.index_in cmp x cl.
Proof. induction cl as [|c cl IH]; simpl; [done|]. destruct (cmp x c); lia. Qed.

Lemma index_in_bound x cl :
  has x cl -> sklearn.index_in cmp x cl < Z.of_nat (length cl).
Proof.
  induction cl as [|c cl IH]; simpl.
  - by intros (x' & ?%elem_of_nil & _).
  - intros (x' & Hin & Heq). destruct (cmp x c) eqn:Hxc; [lia| |].
    all: apply elem_of_cons in Hin as [->|Hin]; [congruence|].
    all: assert (sklearn.index_in cmp x cl < Z.of_nat (length cl))
           by (apply IH; eauto); lia.
Qed.

(** In a sorted list of classes the codes are ordered as the values. *)
Lemma index_in_compare x y cl :
  sorted cl -> has x cl -> has y cl ->
  (sklearn.index_in cmp x cl ?= sklearn.index_in cmp y cl) = cmp x y.
Proof.
  induction 1 as [|c cl Hs IH Hc]; simpl.
  - by intros (x' & ?%elem_of_nil & _).
  - rewrite Forall_forall in Hc.
    assert (forall z, has z (c :: cl) -> cmp z c <> Eq ->
              has z cl /\ cmp c z = Lt) as Hrest.
    { intros z (z' & Hin & Heq) Hne.
      apply elem_of_cons in Hin as [->|Hin]; [done|]. split; [eauto|].
      rewrite (cmp_eq_compat_r z z' c Heq). by apply Hc. }
    intros Hx Hy.
    pose proof (index_in_nonneg x cl). pose proof (index_in_nonneg y cl).
    destruct (cmp x c) eqn:Hxc, (cmp y c) eqn:Hyc.
    all: try (destruct (Hrest x Hx) as [Hx' Hcx]; [congruence|]).
    all: try (destruct (Hrest y Hy) as [Hy' Hcy]; [congruence|]).
    all: rewrite ?Z.add_compare_mono_l, ?IH by done; try done.
    + by rewrite (cmp_eq_compat x c y Hxc), (cmp_eq_sym y c Hyc).
    + rewrite (cmp_eq_compat x c y Hxc), Hcy. apply Z.compare_lt_iff. lia.
    + rewrite (cmp_eq_compat x c y Hxc), Hcy. apply Z.compare_lt_iff. lia.
    + rewrite (cmp_eq_compat_r y c x Hyc), (cmp_antisym c x), Hcx.
      apply Z.compare_gt_iff. lia.
    + rewrite (cmp_eq_compat_r y c x Hyc), (cmp_antisym c x), Hcx.
      apply Z.compare_gt_iff. lia.
Qed.

(** A class is encoded by its own position. *)
Lemma index_in_lookup cl k c :
  sorted cl -> cl !! k = Some c -> sklearn.index_in cmp c cl = Z.of_nat k.
Proof.
  intros Hs. revert k. induction Hs as [|z cl Hs IH Hz]; intros k; [done|].
  destruct k as [|k]; simpl.
  - intros [= ->]. by rewrite cmp_refl.
  - intros Hk. rewrite Forall_forall in Hz.
    assert (cmp z c = Lt) as Hzc by (eapply Hz, list_elem_of_lookup_2, Hk).
    rewrite (cmp_antisym z c), Hzc. simpl. rewrite (IH k Hk). lia.
Qed.

Lemma fit_transform_with_encoding (xs : list A) :
  label_encoding cmp xs (sklearn.fit_transform_with cmp xs).
Proof.
  unfold label_encoding, sklearn.fit_transform_with.
  split; [by rewrite length_fmap|]. split.
  - intros i j x y cx cy Hx Hy. rewrite !list_lookup_fmap, Hx, Hy.
    intros [= <-] [= <-].
    apply index_in_compare; [apply unique_sorted| |];
      eapply unique_has, list_elem_of_lookup_2; eauto.
  - intros c (x & -> & Hx)%list_elem_of_fmap.
    split; [apply index_in_nonneg|]. intros k Hk.
    pose proof (index_in_bound x _ (unique_has x xs Hx)) as Hb.
    destruct (lookup_lt_is_Some_2 (sklearn.unique cmp xs) (Z.to_nat k))
      as [y Hy]; [lia|].
    apply list_elem_of_fmap. exists y. split.
    + rewrite (index_in_lookup _ _ _ (unique_sorted xs) Hy). lia.
    + eapply unique_sub, list_elem_of_lookup_2, Hy.
Qed.

(** Equal codes are codes of equal values. *)
Lemma label_encoding_eq_iff (xs : list A) (codes : list Z) i j x y cx cy :
  label_encoding cmp xs codes ->
  xs !! i = Some x -> xs !! j = Some y ->
  codes !! i = Some cx -> codes !! j = Some cy ->
  cx = cy <-> cmp x y = Eq.
Proof.
  intros (_ & Horder & _) Hx Hy Hcx Hcy.
  rewrite <-(Horder i j x y cx cy Hx Hy Hcx Hcy). symmetry.
  apply Z.compare_eq_iff.
Qed.

(** Encoding the codes again encodes the values. *)
Lemma label_encoding_compose (xs : list A) (ys zs : list Z) :
  label_encoding cmp xs ys -> label_encoding Z.compare ys zs ->
  label_encoding cmp xs zs.
Proof.
  intros (Hl1 & Ho1 & _) (Hl2 & Ho2 & Hd2).
  split; [congruence|]. split; [|done].
  intros i j x y cx cy Hx Hy Hcx Hcy.
  destruct (lookup_lt_is_Some_2 ys i) as [yi Hyi];
    [rewrite Hl1; eapply lookup_lt_Some, Hx|].
  destruct (lookup_lt_is_Some_2 ys j) as [yj Hyj];
    [rewrite Hl1; eapply lookup_lt_Some, Hy|].
  rewrite (Ho2 i j yi yj cx cy) by done. eauto.
Qed.

End Encoding.

#[global] Instance Z_cmp_order : CmpOrder Z.compare.
Proof.
  split.
  - intros x y. apply Z.compare_antisym.
  - intros x y z. rewrite !Z.compare_lt_iff. lia.
  - by intros x y z ->%Z.compare_eq.
Qed.

#[global] Instance bool_cmp_order : CmpOrder Bool.compare.
Proof. split; by intros [] [] ; try intros []. Qed.

Lemma ascii_compare_refl a : Ascii.compare a a = Eq.
Proof. unfold Ascii.compare. apply N.compare_refl. Qed.

Lemma ascii_compare_trans a b c :
  Ascii.compare a b = Lt -> Ascii.compare b c = Lt -> Ascii.compare a c = Lt.
Proof. unfold Ascii.compare. rewrite !N.compare_lt_iff. lia. Qed.

Lemma string_compare_trans s1 s2 s3 :
  String.compare s1 s2 = Lt -> String.compare s2 s3 = Lt ->
  String.compare s1 s3 = Lt.
Proof.
  revert s2 s3. induction s1 as [|a s1 IH]; intros [|b s2] [|c s3]; simpl;
    try done.
  destruct (Ascii.compare a b) eqn:Hab; try done;
    destruct (Ascii.compare b c) eqn:Hbc; try done.
  - apply Ascii.compare_eq_iff in Hab as ->, Hbc as ->.
    rewrite ascii_compare_refl. apply IH.
  - apply Ascii.compare_eq_iff in Hab as ->. by rewrite Hbc.
  - apply Ascii.compare_eq_iff in Hbc as ->. by rewrite Hab.
  - by rewrite (ascii_compare_trans a b c).
Qed.

#[global] Instance text_cmp_order : CmpOrder sklearn.text_cmp.
Proof.
  split.
  - intros [s|] [t|]; simpl; try done. apply String.compare_antisym.
  - intros [s|] [t|] [u|]; simpl; try done. apply string_compare_trans.
  - intros [s|] [t|] z; simpl; try done.
    by intros ->%String.compare_eq_iff.
Qed.

#[global] Instance float_cmp_order : CmpOrder F64.cmp.
Proof.
  split.
  - intros x y. rewrite !F64Facts.cmp_key. apply F64Facts.lex3_antisym.
  - intros x y z. rewrite !F64Facts.cmp_key. apply F64Facts.lex3_trans.
  - intros x y z. rewrite !F64Facts.cmp_key.
    by intros ->%F64Facts.lex3_Eq.
Qed.

Lemma encodes_length c codes : encodes c codes -> length codes = column_len c.
Proof. by destruct c; intros [? _]. Qed.

Lemma encodes_no_cells c codes :
  encodes c codes -> column_len c = 0%nat -> codes = [].
Proof. intros Hc%encodes_length Hlen. apply nil_length_inv. congruence. Qed.

Lemma array_of_codes_len codes :
  column_len (sklearn.array_of_codes codes) = length codes.
Proof. by destruct codes. Qed.

Lemma fit_transform_encodes c :
  exists codes,
    encodes c codes /\ holds_codes c (sklearn.fit_transform c) codes.
Proof.
  destruct c as [xs|xs|xs|xs|xs]; simpl.
  1-3: eexists; split; [apply fit_transform_with_encoding; apply _|by left].
  all: exists (sklearn.fit_transform_with sklearn.text_cmp xs);
    (split; [apply fit_transform_with_encoding; apply _|]);
    destruct xs; [by right|by left].
Qed.

(** A column with a cell is encoded as an int64 array. *)
Lemma fit_transform_cells c :
  column_len c ≠ 0%nat ->
  exists codes, sklearn.fit_transform c = Int64 codes /\ encodes c codes.
Proof.
  intros Hlen. destruct (fit_transform_encodes c) as (codes & Hc & [Hi|Hf]).
  - by exists codes.
  - by destruct Hf as (_ & ? & _).
Qed.

Lemma fit_transform_encodes_again c c1 codes :
  encodes c codes -> holds_codes c c1 codes ->
  exists codes',
    encodes c codes' /\ holds_codes c (sklearn.fit_transform c1) codes'.
Proof.
  intros Hc [->|(_ & Hlen & ->)].
  - eexists. split; [|by left].
    pose proof (fit_transform_with_encoding Z.compare codes) as Hz.
    destruct c; simpl in *; eapply label_encoding_compose; eauto; apply _.
  - exists []. split; [|by left].
    by rewrite <-(encodes_no_cells c codes Hc Hlen).
Qed.

Lemma encoded_column_iff S S' nc nc' :
  (nc.1 ∈ S <-> nc.1 ∈ S') ->
  encoded_column S nc nc' -> encoded_column S' nc nc'.
Proof.
  unfold encoded_column. intros HS [Hn Hc]. split; [done|].
  destruct (decide (nc.1 ∈ S)), (decide (nc.1 ∈ S')); tauto.
Qed.

Lemma encoded_columns_iff S S' T E :
  (forall n, n ∈ S <-> n ∈ S') ->
  encoded_columns S T E -> encoded_columns S' T E.
Proof.
  intros HS [Hlen Hcols]. split; [done|].
  eapply Forall2_impl; [exact Hcols|]. intros nc nc'.
  by apply encoded_column_iff.
Qed.

Lemma encoded_columns_names S T E :
  encoded_columns S T E -> column_names E = column_names T.
Proof.
  intros [_ Hcols]. unfold column_names.
  induction Hcols as [|nc nc' l l' [Hn _] _ IH]; [done|].
  rewrite !fmap_cons. by f_equal.
Qed.

Lemma encoded_columns_well_formed S T E :
  well_formed T -> encoded_columns S T E -> well_formed E.
Proof.
  intros [Hlen Hnd] HE. split.
  - destruct HE as [-> Hcols].
    induction Hcols as [|nc nc' l l' [Hn Hc] _ IH]; [done|].
    apply Forall_cons in Hlen as [Hl Hlen]. constructor; [|by apply IH].
    destruct (decide (nc.1 ∈ S)) as [_|_].
    + destruct Hc as (codes & Hc%encodes_length & [->|(_ & H0 & ->)]);
        simpl; congruence.
    + by rewrite Hc.
  - by rewrite (encoded_columns_names S T E).
Qed.

Lemma lookup_label_is_Some {A} label (cols : list (string * A)) :
  label ∈ cols.*1 -> is_Some (lookup_label label cols).
Proof.
  induction cols as [|[n c] cols IH]; simpl; [by intros ?%elem_of_nil|].
  destruct (decide (n = label)); [eauto|].
  intros [?|?]%elem_of_cons; [congruence|by apply IH].
Qed.

Lemma encoded_columns_skip S x (l l' : list (string * column)) :
  x ∉ l.*1 ->
  Forall2 (encoded_column S) l l' -> Forall2 (encoded_column (x :: S)) l l'.
Proof.
  intros Hx Hcols. induction Hcols as [|nc nc' l l' Hnc _ IH]; [done|].
  rewrite fmap_cons, not_elem_of_cons in Hx. destruct Hx as [Hne Hx].
  constructor; [|by apply IH].
  eapply encoded_column_iff; [|exact Hnc].
  rewrite elem_of_cons. split; [auto|]. by intros [?|?].
Qed.

(** One assignment [E[x] = fit_transform(E[x])] on the columns. *)
Lemma assign_encoded S x (colsT colsE : list (string * column)) c' :
  NoDup colsT.*1 ->
  Forall2 (encoded_column S) colsT colsE ->
  lookup_label x colsE = Some c' ->
  Forall2 (encoded_column (x :: S)) colsT
    (assign_column x (sklearn.fit_transform c') colsE).
Proof.
  intros Hnd Hcols. revert Hnd.
  induction Hcols as [|[n c] [n' c1] l l' [Hn Hc] Hrest IH]; [done|].
  simpl in Hn. subst n'. rewrite fmap_cons.
  intros [Hnl Hnd]%NoDup_cons. simpl.
  destruct (decide (n = x)) as [->|Hne].
  - intros [= <-]. constructor; [|by apply encoded_columns_skip].
    split; [done|]. simpl. rewrite decide_True by left.
    simpl in Hc. destruct (decide (x ∈ S)).
    + destruct Hc as (codes & Hc & Hh).
      by apply (fit_transform_encodes_again c c1 codes).
    + subst c1. apply fit_transform_encodes.
  - intros Hl. constructor; [|by apply IH].
    eapply encoded_column_iff; [|split; [done|exact Hc]].
    simpl. rewrite elem_of_cons. split; [auto|]. by intros [?|?].
Qed.

Lemma lookup_label_elem {A} label (cols : list (string * A)) c :
  lookup_label label cols = Some c -> (label, c) ∈ cols.
Proof.
  induction cols as [|[n c1] cols IH]; simpl; [done|].
  destruct (decide (n = label)) as [->|_].
  - intros [= ->]. by left.
  - intros Hl. right. by apply IH.
Qed.

Lemma fit_transform_len c :
  column_len (sklearn.fit_transform c) = column_len c.
Proof.
  destruct c; simpl; rewrite ?array_of_codes_len;
    unfold sklearn.fit_transform_with; by rewrite length_fmap.
Qed.

Section EncodeLoop.
Context (h : heap) (T : DataFrame) (Hwf : well_formed T).

(** The body of the loop of [label_encode_categorical_variables], on the
    copy allocated at the end of the caller's heap [h]. *)
Local Abbreviation body :=
  (fun column : string =>
     cols <- pd.columns (length h) ;;
     if decide (column ∈ cols) then
       y <- pd.getitem (length h) column ;;
       pd.setitem (length h) column (sklearn.fit_transform y)
     else ret tt).

Lemma encode_step_run S E x :
  encoded_columns S T E ->
  exists E1,
    body x (h ++ [E]) = (Ok tt, h ++ [E1]) /\
    encoded_columns (x :: S) T E1 /\
    (x ∉ column_names T -> E1 = E).
Proof using Hwf.
  intros HE. pose proof (encoded_columns_names S T E HE) as Hnames.
  pose proof (encoded_columns_well_formed S T E Hwf HE) as [HlenE _].
  unfold bind. rewrite (columns_run _ _ E (lookup_alloc h E)), Hnames.
  destruct (decide (x ∈ column_names T)) as [Hx|Hx].
  - destruct (lookup_label_is_Some x (df_columns E)) as [c' Hc'];
      [by rewrite <-Hnames in Hx|].
    unfold pd.getitem, pd.setitem, bind.
    rewrite !(deref_run _ _ E (lookup_alloc h E)), Hc'. unfold ret.
    rewrite (deref_run _ _ E (lookup_alloc h E)).
    assert (column_len (sklearn.fit_transform c') = df_len E) as Hlen.
    { rewrite fit_transform_len. rewrite Forall_forall in HlenE.
      apply (HlenE (x, c')). by apply lookup_label_elem. }
    rewrite decide_True by done. unfold store.
    exists (mkDataFrame (df_len E)
              (assign_column x (sklearn.fit_transform c') (df_columns E))).
    split; [|split; [|done]].
    + rewrite insert_app_r_alt, Nat.sub_diag by done. reflexivity.
    + destruct HE as [HlE Hcols], Hwf as [_ Hnd]. split; [done|]. simpl.
      by apply assign_encoded.
  - exists E. split; [done|]. split; [|done].
    destruct HE as [HlE Hcols]. split; [done|].
    by apply encoded_columns_skip.
Qed.

(** The whole loop, and the loop over the labels that exist only. *)
Lemma encode_loop_run L S E :
  encoded_columns S T E ->
  exists E',
    for_each L body (h ++ [E]) = (Ok tt, h ++ [E']) /\
    for_each (filter (fun n => n ∈ column_names T) L) body (h ++ [E])
    = (Ok tt, h ++ [E']) /\
    encoded_columns (L ++ S) T E'.
Proof using Hwf.
  revert S E. induction L as [|x L IH]; intros S E HE.
  - exists E. split; [done|]. split; [done|exact HE].
  - destruct (encode_step_run S E x HE) as (E1 & Hstep & HE1 & Hskip).
    destruct (IH (x :: S) E1 HE1) as (E' & Hrun & Hrun' & HE').
    exists E'. split; [|split].
    + simpl. unfold bind at 1. by rewrite Hstep.
    + rewrite filter_cons. destruct (decide (x ∈ column_names T)) as [Hx|Hx].
      * simpl. unfold bind at 1. by rewrite Hstep.
      * by rewrite <-(Hskip Hx).
    + eapply encoded_columns_iff; [|exact HE']. intros n.
      change ((x :: L) ++ S) with (x :: (L ++ S)).
      rewrite elem_of_cons, !elem_of_app, elem_of_cons. tauto.
Qed.

End EncodeLoop.

Lemma encoded_columns_nil T : encoded_columns [] T T.
Proof.
  split; [done|]. apply Forall_Forall2_diag, Forall_forall.
  intros nc _. split; [done|]. rewrite decide_False; [done|].
  by intros ?%elem_of_nil.
Qed.

Lemma label_encode_run h r T L :
  h !! r = Some T -> well_formed T ->
  exists E,
    label_encode_categorical_variables r L h = (Ok (length h), h ++ [E]) /\
    label_encode_categorical_variables r
      (filter (fun n => n ∈ column_names T) L) h
    = (Ok (length h), h ++ [E]) /\
    encoded_columns L T E.
Proof.
  intros Hr Hwf.
  destruct (encode_loop_run h T Hwf L [] T (encoded_columns_nil T))
    as (E & Hrun & Hrun' & HE).
  exists E. unfold label_encode_categorical_variables.
  rewrite !(bind_run _ _ h _ _ (copy_run h r T Hr)).
  rewrite (bind_run _ _ _ _ _ Hrun), (bind_run _ _ _ _ _ Hrun').
  repeat split; [apply HE|]. destruct HE as [_ HE].
  eapply Forall2_impl; [exact HE|]. intros nc nc'.
  apply encoded_column_iff. by rewrite app_nil_r.
Qed.

(** The encoder on the table of the missing-value example: the text column
    B = [x, y, x, z] becomes [0, 1, 0, 2]; in A = [1, 2, missing, 4] the
    missing marker takes the last code; the absent label Z and the second
    B change nothing; the caller's table stays at reference 0. *)
Example label_encode_example :
  label_encode_categorical_variables 0%nat ["B"; "Z"; "A"; "B"]%string
    [example_missing]
  = (Ok 1%nat,
     [example_missing;
      mkDataFrame 4
        [("A"%string, Int64 [0; 1; 3; 2]); ("B"%string, Int64 [0; 1; 0; 2])]]).
Proof. reflexivity. Qed.

(** The encoder on a table without rows: the text column B becomes the
    empty float64 array, and the empty int64 array when it is listed, and
    so encoded, a second time. *)
Example label_encode_no_rows :
  label_encode_categorical_variables 0%nat ["B"]%string [example_empty]
  = (Ok 1%nat,
     [example_empty;
      mkDataFrame 0 [("A"%string, Int64 []); ("B"%string, Float64 [])]]) /\
  label_encode_categorical_variables 0%nat ["B"; "B"]%string [example_empty]
  = (Ok 1%nat,
     [example_empty;
      mkDataFrame 0 [("A"%string, Int64 []); ("B"%string, Int64 [])]]).
Proof. split; reflexivity. Qed.

(** C7. [label_encode_categorical_variables] returns a new frame with the
    row count, the column labels and the column order of the table.  A
    column whose label is in the list is replaced by the array of the codes
    that encode its cells: the codes are ordered as the values are in the
    sorted order of the dtype, so equal values get equal codes and
    different values different codes, and they are the numbers from zero
    up, without a gap.  The array is int64; only for a text column of a
    table without rows, which has no value to encode, it can be the empty
    float64 array.  Every other column is as it was. *)
Theorem label_encode_categorical_variables_encodes :
  forall (h : heap) (r : ref) (T : DataFrame) (L : list string),
    h !! r = Some T ->
    well_formed T ->
    exists E,
      label_encode_categorical_variables r L h = (Ok (length h), h ++ [E]) /\
      df_len E = df_len T /\
      column_names E = column_names T /\
      well_formed E /\
      forall i name c,
        df_columns T !! i = Some (name, c) ->
        (name ∈ L ->
           exists codes,
             encodes c codes /\
             (df_columns E !! i = Some (name, Int64 codes) \/
              (is_object_or_category c = true /\ df_len T = 0%nat /\
               df_columns E !! i = Some (name, Float64 [])))) /\
        (name ∉ L -> df_columns E !! i = Some (name, c)).
Proof.
  intros h r T L Hr Hwf.
  destruct (label_encode_run h r T L Hr Hwf) as (E & Hrun & _ & HE).
  exists E. split; [exact Hrun|]. split; [apply HE|].
  split; [by eapply encoded_columns_names|].
  split; [by eapply encoded_columns_well_formed|].
  intros i name c Hi. destruct HE as [_ HE].
  destruct (Forall2_lookup_l _ _ _ _ _ HE Hi) as ([n' c'] & Hi' & Hn & Hc).
  simpl in Hn, Hc. subst n'. rewrite Hi'. split; intros HL.
  - rewrite decide_True in Hc by done.
    destruct Hc as (codes & Hc & [->|(Htext & Hlen & ->)]);
      exists codes; (split; [done|]); [by left|right].
    split; [done|]. split; [|done].
    destruct Hwf as [Hcols _]. rewrite Forall_forall in Hcols.
    rewrite <-Hlen. symmetry. apply (Hcols (name, c)).
    by eapply list_elem_of_lookup_2.
  - rewrite decide_False in Hc by done. by subst c'.
Qed.

Lemma label_encode_categorical_variables_encodes_witness :
  [example_missing] !! 0%nat = Some example_missing /\
  well_formed example_missing /\
  exists E,
    label_encode_categorical_variables 0%nat ["B"; "Z"]%string [example_missing]
    = (Ok 1%nat, [example_missing] ++ [E]) /\
    column_names E = ["A"; "B"]%string.
Proof.
  split; [reflexivity|]. split; [exact example_missing_well_formed|].
  destruct (label_encode_categorical_variables_encodes
              [example_missing] 0%nat example_missing ["B"; "Z"]%string
              eq_refl example_missing_well_formed)
    as (E & Hrun & _ & Hnames & _).
  exists E. split; [exact Hrun|exact Hnames].
Defined.

(** C9. A label of the list that is not a column of the table is skipped:
    the call does not raise, and it returns what the call with only the
    labels that are columns returns. *)
Theorem label_encode_categorical_variables_skips_absent :
  forall (h : heap) (r : ref) (T : DataFrame) (L : list string),
    h !! r = Some T ->
    well_formed T ->
    exists E,
      label_encode_categorical_variables r L h = (Ok (length h), h ++ [E]) /\
      label_encode_categorical_variables r
        (filter (fun n => n ∈ column_names T) L) h
      = (Ok (length h), h ++ [E]).
Proof.
  intros h r T L Hr Hwf.
  destruct (label_encode_run h r T L Hr Hwf) as (E & Hrun & Hrun' & _).
  by exists E.
Qed.

Lemma label_encode_categorical_variables_skips_absent_witness :
  [example_missing] !! 0%nat = Some example_missing /\
  well_formed example_missing /\
  exists E,
    label_encode_categorical_variables 0%nat ["Z"; "B"; "Y"]%string
      [example_missing]
    = (Ok 1%nat, [example_missing] ++ [E]) /\
    label_encode_categorical_variables 0%nat
      (filter (fun n => n ∈ column_names example_missing)
              ["Z"; "B"; "Y"]%string)
      [example_missing]
    = (Ok 1%nat, [example_missing] ++ [E]).
Proof.
  split; [reflexivity|]. split; [exact example_missing_well_formed|].
  exact (label_encode_categorical_variables_skips_absent
           [example_missing] 0%nat example_missing ["Z"; "B"; "Y"]%string
           eq_refl example_missing_well_formed).
Defined.

(** ** Correlated columns *)

Lemma abs_corr_sym mat i j : abs_corr mat i j = abs_corr mat j i.
Proof.
  unfold abs_corr, nancorr.entry. by rewrite Nat.max_comm, Nat.min_comm.
Qed.

Lemma all_ok_length {A} (l : list (outcome A)) r :
  all_ok l = Ok r -> length r = length l.
Proof.
  revert r. induction l as [|[a|e] l IH]; intros r; simpl; try done.
  - by intros [= <-].
  - destruct (all_ok l) as [r'|]; [|done]. intros [= <-]. simpl.
    by rewrite (IH r').
Qed.

Lemma to_numpy_float_length {conv : FloatOfStr} df mat :
  to_numpy_float df = Ok mat -> length mat = length (column_names df).
Proof.
  unfold to_numpy_float, column_names. intros ->%all_ok_length.
  by rewrite !length_fmap.
Qed.

Lemma lookup_label_zip {A} (names : list string) (cols : list A) j n c :
  NoDup names -> names !! j = Some n -> cols !! j = Some c ->
  lookup_label n (zip names cols) = Some c.
Proof.
  intros Hnd. revert cols j.
  induction Hnd as [|m names Hm Hnd IH]; intros [|c1 cols] [|j]; simpl;
    try done.
  - intros [= ->] [= ->]. by rewrite decide_True.
  - intros Hn Hc. rewrite decide_False; [by eapply IH|].
    intros ->. by apply list_elem_of_lookup_2 in Hn.
Qed.

Lemma elem_of_index_where index bools l :
  l ∈ index_where index bools <->
  exists i, index !! i = Some l /\ bools !! i = Some true.
Proof.
  unfold index_where. rewrite list_elem_of_fmap. split.
  - intros ([l' b] & -> & [Hb Hin]%list_elem_of_filter). simpl in *. subst b.
    apply list_elem_of_lookup in Hin as [i Hi].
    apply lookup_zip_with_Some in Hi as (x & y & [= <- <-] & Hx & Hy). eauto.
  - intros (i & Hl & Hb). exists (l, true). split; [done|].
    apply list_elem_of_filter. split; [done|].
    apply list_elem_of_lookup. exists i.
    apply lookup_zip_with_Some. eauto.
Qed.

(** The labels the two loops collect from a mask given by [high]. *)
Lemma elem_of_inner_loop (col : string) (l : list string) (acc : gset string) x :
  x ∈ foldl (fun high_corr_vars col2 =>
               if decide (col ≠ col2) then high_corr_vars ∪ {[col2]}
               else high_corr_vars) acc l
  <-> x ∈ acc \/ (x ∈ l /\ col ≠ x).
Proof.
  revert acc. induction l as [|y l IH]; intros acc; simpl.
  - split; [auto|]. by intros [?|[?%elem_of_nil _]].
  - rewrite IH, elem_of_cons. destruct (decide (col ≠ y)) as [Hy|Hy].
    + rewrite elem_of_union, elem_of_singleton.
      intuition (subst; auto).
    + apply dec_stable in Hy. subst y. intuition (subst; auto). done.
Qed.

Lemma elem_of_outer_loop (g : string -> list string)
    (l : list string) (acc : gset string) x :
  x ∈ foldl (fun high_corr_vars col =>
               foldl (fun high_corr_vars col2 =>
                        if decide (col ≠ col2) then high_corr_vars ∪ {[col2]}
                        else high_corr_vars) high_corr_vars (g col)) acc l
  <-> x ∈ acc \/ exists col, col ∈ l /\ x ∈ g col /\ col ≠ x.
Proof.
  revert acc. induction l as [|y l IH]; intros acc; simpl.
  - split; [auto|]. by intros [?|(? & ?%elem_of_nil & _)].
  - rewrite IH, elem_of_inner_loop. split.
    + intros [[?|[? ?]]|(col & ? & ? & ?)]; [by left| |].
      * right. exists y. split; [by left|done].
      * right. exists col. split; [by right|done].
    + intros [?|(col & [->|?]%elem_of_cons & ? & ?)]; [by left; left| |].
      * left; by right.
      * right; by exists col.
Qed.

Lemma mask_getitem names mat t j col :
  NoDup names -> length mat = length names -> names !! j = Some col ->
  matrix_getitem
    (matrix_map (fun x => F64.geb x t) (corr_abs_of names mat)) col
  = (fun i => F64.geb (abs_corr mat i j) t) <$> seq 0 (length mat).
Proof.
  intros Hnd Hlen Hj. unfold matrix_getitem, matrix_map, corr_abs_of. simpl.
  erewrite lookup_label_zip; [done|done|exact Hj|].
  rewrite !list_lookup_fmap, lookup_seq_lt; simpl.
  - by rewrite <-list_fmap_compose.
  - rewrite Hlen. eapply lookup_lt_Some, Hj.
Qed.

Lemma elem_of_high_corr_labels names mat t x :
  NoDup names -> length mat = length names ->
  x ∈ high_corr_labels names mat t <->
  exists i j, i ≠ j /\ names !! i = Some x /\ is_Some (names !! j) /\
              F64.geb (abs_corr mat i j) t = true.
Proof.
  intros Hnd Hlen. unfold high_corr_labels. cbv zeta.
  rewrite (elem_of_outer_loop (fun col =>
    index_where names
      (matrix_getitem
         (matrix_map (fun x => F64.geb x t) (corr_abs_of names mat)) col))).
  split.
  - intros [?%elem_of_empty|(col & Hcol & Hx & Hne)]; [done|].
    apply list_elem_of_lookup in Hcol as [j Hj].
    change (names !! j = Some col) in Hj.
    rewrite (mask_getitem names mat t j col Hnd Hlen Hj) in Hx.
    apply elem_of_index_where in Hx as (i & Hi & Hb).
    rewrite list_lookup_fmap in Hb.
    destruct (seq 0 (length mat) !! i) as [i'|] eqn:Hs; [|done].
    apply lookup_seq in Hs as [-> _]. simpl in Hb.
    exists i, j. split; [intros ->; congruence|]. split; [done|].
    split; [eauto|]. congruence.
  - intros (i & j & Hij & Hi & [col Hj] & Hb). right. exists col.
    split; [by eapply list_elem_of_lookup_2|]. split.
    + rewrite (mask_getitem names mat t j col Hnd Hlen Hj).
      apply elem_of_index_where. exists i. split; [done|].
      rewrite list_lookup_fmap, lookup_seq_lt; [by rewrite <-Hb|].
      rewrite Hlen. eapply lookup_lt_Some, Hi.
    + intros ->. apply Hij. eapply NoDup_lookup; eauto.
Qed.

Lemma drop_highly_correlated_variables_run {conv : FloatOfStr} h r T t mat :
  h !! r = Some T ->
  to_numpy_float T = Ok mat ->
  drop_highly_correlated_variables r t h
  = (Ok (length h),
     h ++ [drop_columns
             (elements (high_corr_labels (column_names T) mat t)) T]).
Proof.
  intros Hr Hmat. unfold drop_highly_correlated_variables.
  erewrite bind_run;
    [|unfold pd_corr_abs; erewrite bind_run by (by apply deref_run);
      rewrite Hmat; reflexivity].
  fold (high_corr_labels (column_names T) mat t).
  erewrite bind_run; [reflexivity|]. apply drop_run; [done|].
  apply Forall_forall. intros x Hx%elem_of_elements.
  unfold high_corr_labels in Hx. cbv zeta in Hx.
  apply elem_of_outer_loop in Hx as [?%elem_of_empty|(col & _ & Hx & _)];
    [done|].
  apply elem_of_index_where in Hx as (i & Hi & _).
  by eapply list_elem_of_lookup_2.
Qed.

Lemma column_names_drop_columns labels T :
  column_names (drop_columns labels T)
  = filter (fun n => n ∉ labels) (column_names T).
Proof.
  unfold column_names, drop_columns. simpl. symmetry.
  by apply filter_fmap_iff.
Qed.

(** A column survives exactly when no other column is correlated with it
    at or above the threshold. *)
Lemma survives_iff {conv : FloatOfStr} T mat t j b :
  well_formed T ->
  to_numpy_float T = Ok mat ->
  column_names T !! j = Some b ->
  b ∈ column_names
        (drop_columns (elements (high_corr_labels (column_names T) mat t)) T)
  <-> forall i, i ≠ j -> (i < length (column_names T))%nat ->
                F64.geb (abs_corr mat i j) t = false.
Proof.
  intros [_ Hnd] Hmat Hj.
  pose proof (to_numpy_float_length T mat Hmat) as Hlen.
  rewrite column_names_drop_columns, list_elem_of_filter, elem_of_elements.
  rewrite (elem_of_high_corr_labels _ _ _ _ Hnd Hlen). split.
  - intros [Hnot _] i Hij Hi.
    destruct (F64.geb (abs_corr mat i j) t) eqn:Hb; [|done].
    exfalso. apply Hnot. exists j, i. split; [done|]. split; [done|].
    split; [by apply lookup_lt_is_Some_2|]. by rewrite abs_corr_sym.
  - intros Hall. split; [|by eapply list_elem_of_lookup_2].
    intros (i' & j' & Hne & Hi' & Hj' & Hb).
    assert (i' = j) as -> by (eapply NoDup_lookup; eauto).
    rewrite abs_corr_sym, Hall in Hb; [done|done|].
    by apply lookup_lt_is_Some_1.
Qed.

Lemma example_correlated_well_formed : well_formed example_correlated.
Proof. compute_done. Qed.

(** C1, on its own example: with threshold 0.7 the result keeps neither
    B nor A.  (The table holds numbers only, so the conversion of text,
    here [decimal], plays no part.) *)
Lemma earlier_column_is_dropped_too :
  exists T',
    drop_highly_correlated_variables (conv := decimal) 0%nat default_threshold
      [example_correlated]
    = (Ok 1%nat, [example_correlated; T']) /\
    ~ (("A"%string ∈ column_names T') /\ ("B"%string ∉ column_names T')).
Proof.
  exists (mkDataFrame 4 []). split; [by vm_compute|].
  by intros [?%elem_of_nil _].
Qed.

(** C1, amended.  [drop_highly_correlated_variables] returns a new frame
    with the rows of the table and, in their order, the columns that are
    not correlated at or above the threshold with any other column: of a
    pair at or above the threshold neither the later nor the earlier
    column survives.  On A = [1, 2, 3, 4], B = [2, 4, 6, 8] with threshold
    0.7 the result has no column: B and A are both dropped. *)
Theorem drop_highly_correlated_variables_survivors {conv : FloatOfStr} :
  (forall (h : heap) (r : ref) (T : DataFrame) (t : float) mat,
      h !! r = Some T ->
      well_formed T ->
      to_numpy_float T = Ok mat ->
      exists T',
        drop_highly_correlated_variables r t h
        = (Ok (length h), h ++ [T']) /\
        df_len T' = df_len T /\
        df_columns T' `sublist_of` df_columns T /\
        forall j b,
          column_names T !! j = Some b ->
          (b ∈ column_names T' <->
           forall i, i ≠ j -> (i < length (column_names T))%nat ->
                     F64.geb (abs_corr mat i j) t = false)) /\
  drop_highly_correlated_variables 0%nat default_threshold
    [example_correlated]
  = (Ok 1%nat, [example_correlated; mkDataFrame 4 []]).
Proof.
  split; [|by vm_compute].
  intros h r T t mat Hr Hwf Hmat. eexists.
  split; [by apply drop_highly_correlated_variables_run|].
  split; [done|]. split; [apply sublist_filter|].
  intros j b Hj. by apply survives_iff.
Qed.

Lemma example_correlated_mat {conv : FloatOfStr} :
  to_numpy_float example_correlated
  = Ok [[1; 2; 3; 4]; [2; 4; 6; 8]]%float.
Proof. reflexivity. Qed.

Lemma drop_highly_correlated_variables_survivors_witness :
  [example_correlated] !! 0%nat = Some example_correlated /\
  well_formed example_correlated /\
  to_numpy_float (conv := decimal) example_correlated
  = Ok [[1; 2; 3; 4]; [2; 4; 6; 8]]%float /\
  exists T',
    drop_highly_correlated_variables (conv := decimal) 0%nat default_threshold
      [example_correlated]
    = (Ok 1%nat, [example_correlated] ++ [T']) /\
    df_len T' = 4%nat.
Proof.
  split; [reflexivity|]. split; [exact example_correlated_well_formed|].
  split; [exact example_correlated_mat|].
  destruct (proj1 (drop_highly_correlated_variables_survivors (conv := decimal))
              [example_correlated] 0%nat example_correlated default_threshold
              _ eq_refl example_correlated_well_formed example_correlated_mat)
    as (T' & Hrun & Hlen & _).
  exists T'. split; [exact Hrun|exact Hlen].
Defined.

(** C2. Whenever two different columns have an absolute correlation at or
    above the threshold, [drop_highly_correlated_variables] removes both
    of them. *)
Theorem drop_highly_correlated_variables_drops_both {conv : FloatOfStr} :
  forall (h : heap) (r : ref) (T : DataFrame) (t : float) mat,
    h !! r = Some T ->
    well_formed T ->
    to_numpy_float T = Ok mat ->
    exists T',
      drop_highly_correlated_variables r t h
      = (Ok (length h), h ++ [T']) /\
      forall i j a b,
        i ≠ j ->
        column_names T !! i = Some a ->
        column_names T !! j = Some b ->
        F64.geb (abs_corr mat i j) t = true ->
        (a ∉ column_names T') /\ (b ∉ column_names T').
Proof.
  intros h r T t mat Hr Hwf Hmat. eexists.
  split; [by apply drop_highly_correlated_variables_run|].
  intros i j a b Hij Hi Hj Hb. split.
  - rewrite (survives_iff T mat t i a Hwf Hmat Hi). intros Hall.
    rewrite abs_corr_sym, Hall in Hb; [done|done|].
    eapply lookup_lt_Some, Hj.
  - rewrite (survives_iff T mat t j b Hwf Hmat Hj). intros Hall.
    rewrite Hall in Hb; [done|done|]. eapply lookup_lt_Some, Hi.
Qed.

Lemma drop_highly_correlated_variables_drops_both_witness :
  [example_correlated] !! 0%nat = Some example_correlated /\
  well_formed example_correlated /\
  to_numpy_float (conv := decimal) example_correlated
  = Ok [[1; 2; 3; 4]; [2; 4; 6; 8]]%float /\
  exists T',
    drop_highly_correlated_variables (conv := decimal) 0%nat default_threshold
      [example_correlated]
    = (Ok 1%nat, [example_correlated] ++ [T']) /\
    ("A"%string ∉ column_names T') /\ ("B"%string ∉ column_names T').
Proof.
  split; [reflexivity|]. split; [exact example_correlated_well_formed|].
  split; [exact example_correlated_mat|].
  destruct (drop_highly_correlated_variables_drops_both (conv := decimal)
              [example_correlated] 0%nat example_correlated default_threshold
              _ eq_refl example_correlated_well_formed example_correlated_mat)
    as (T' & Hrun & Hboth).
  exists T'. split; [exact Hrun|].
  apply (Hboth 0%nat 1%nat); [done|reflexivity|reflexivity|by vm_compute].
Defined.

(** [df.corr().abs()] of the table with a constant column: every entry
    that involves A is [nan], B with itself is 1. *)
Example corr_abs_constant :
  corr_abs_of ["A"; "B"]%string [[1; 1; 1]; [1; 2; 3]]%float
  = mkMatrix ["A"; "B"]%string
      [[PrimFloat.nan; PrimFloat.nan]; [PrimFloat.nan; 1%float]].
Proof. reflexivity. Qed.

(** The least int64 converts to [-2^63]: the correlation of
    A = [-2^63, 1, 2, 3, 4, 5, 6] and B = [0, 1, 2, 3, 4, 5, 6] is about
    0.612, below 0.7, and both columns are kept. *)
Example drop_highly_correlated_variables_int64_min {conv : FloatOfStr} :
  to_numpy_float example_int64_min
  = Ok [[-0x1p63; 1; 2; 3; 4; 5; 6]; [0; 1; 2; 3; 4; 5; 6]]%float /\
  abs_corr [[-0x1p63; 1; 2; 3; 4; 5; 6]; [0; 1; 2; 3; 4; 5; 6]]%float 0 1
  = 0x1.3988e1409212ep-1%float /\
  drop_highly_correlated_variables 0%nat default_threshold [example_int64_min]
  = (Ok 1%nat, [example_int64_min; example_int64_min]).
Proof. repeat split; by vm_compute. Qed.

(** Text that spells numbers is converted: under [decimal] the column
    A = ["1", "2", "3", "4"] correlates perfectly with B = [2, 4, 6, 8] and
    both are dropped; the text column B of the missing-value example spells
    no number and the call raises [ValueError], leaving the heap as it
    was. *)
Example drop_highly_correlated_variables_text :
  drop_highly_correlated_variables (conv := decimal) 0%nat default_threshold
    [example_numeric_text]
  = (Ok 1%nat, [example_numeric_text; mkDataFrame 4 []]) /\
  drop_highly_correlated_variables (conv := decimal) 0%nat default_threshold
    [example_missing]
  = (Raise ValueError, [example_missing]).
Proof. split; by vm_compute. Qed.

(** C3, with a constant column: the correlation of A and B is [nan], both
    columns are retained, and [nan] is not below the threshold.  (The
    table holds numbers only, so the conversion of text, here [decimal],
    plays no part.) *)
Lemma retained_pairs_below_fails_on_constant :
  to_numpy_float (conv := decimal) example_constant
  = Ok [[1; 1; 1]; [1; 2; 3]]%float /\
  drop_highly_correlated_variables (conv := decimal) 0%nat default_threshold
    [example_constant]
  = (Ok 1%nat, [example_constant; example_constant]) /\
  ~ retained_pairs_below example_constant example_constant
      [[1; 1; 1]; [1; 2; 3]]%float default_threshold.
Proof.
  split; [reflexivity|]. split; [by vm_compute|].
  intros Hbelow.
  specialize (Hbelow 0%nat 1%nat "A"%string "B"%string).
  assert (F64.ltb (abs_corr [[1; 1; 1]; [1; 2; 3]]%float 0 1)
            default_threshold = false) as Hnan by (by vm_compute).
  rewrite Hbelow in Hnan; [done|done|done|done| |].
  - by left.
  - right; by left.
Qed.

(** C3, amended.  No two columns retained by
    [drop_highly_correlated_variables] are correlated at or above the
    threshold: their absolute correlation is strictly below it, or it is
    [nan] (as with a constant column), or the threshold is [nan]. *)
Theorem drop_highly_correlated_variables_retained_pairs {conv : FloatOfStr} :
  forall (h : heap) (r : ref) (T : DataFrame) (t : float) mat,
    h !! r = Some T ->
    well_formed T ->
    to_numpy_float T = Ok mat ->
    exists T',
      drop_highly_correlated_variables r t h
      = (Ok (length h), h ++ [T']) /\
      forall i j a b,
        i ≠ j ->
        column_names T !! i = Some a ->
        column_names T !! j = Some b ->
        a ∈ column_names T' -> b ∈ column_names T' ->
        F64.geb (abs_corr mat i j) t = false /\
        (F64.ltb (abs_corr mat i j) t = true \/
         PrimFloat.is_nan (abs_corr mat i j) = true \/
         PrimFloat.is_nan t = true).
Proof.
  intros h r T t mat Hr Hwf Hmat. eexists.
  split; [by apply drop_highly_correlated_variables_run|].
  intros i j a b Hij Hi Hj _ Hb.
  rewrite (survives_iff T mat t j b Hwf Hmat Hj) in Hb.
  assert (F64.geb (abs_corr mat i j) t = false) as Hge.
  { apply Hb; [done|]. eapply lookup_lt_Some, Hi. }
  split; [done|]. by apply F64Facts.not_ge_lt.
Qed.

Lemma example_constant_well_formed : well_formed example_constant.
Proof. compute_done. Qed.

Lemma drop_highly_correlated_variables_retained_pairs_witness :
  [example_constant] !! 0%nat = Some example_constant /\
  well_formed example_constant /\
  to_numpy_float (conv := decimal) example_constant
  = Ok [[1; 1; 1]; [1; 2; 3]]%float /\
  exists T',
    drop_highly_correlated_variables (conv := decimal) 0%nat default_threshold
      [example_constant]
    = (Ok 1%nat, [example_constant] ++ [T']).
Proof.
  split; [reflexivity|]. split; [exact example_constant_well_formed|].
  split; [reflexivity|].
  destruct (drop_highly_correlated_variables_retained_pairs (conv := decimal)
              [example_constant] 0%nat example_constant default_threshold
              _ eq_refl example_constant_well_formed
              (eq_refl : to_numpy_float (conv := decimal) example_constant
                         = Ok [[1; 1; 1]; [1; 2; 3]]%float))
    as (T' & Hrun & _).
  exists T'. exact Hrun.
Defined.

(** ** Tables without rows or without columns *)

Lemma filter_all {A} (P : A -> Prop) `{!forall x, Decision (P x)} (l : list A) :
  Forall P l -> filter P l = l.
Proof.
  induction 1 as [|x l Hx _ IH]; [done|].
  by rewrite filter_cons, decide_True, IH.
Qed.

Lemma drop_columns_none labels T :
  (forall nc, nc ∈ df_columns T -> nc.1 ∉ labels) ->
  drop_columns labels T = T.
Proof.
  intros Hnone. unfold drop_columns. rewrite filter_all; [by destruct T|].
  by apply Forall_forall.
Qed.

Lemma degenerate_no_cells T nc :
  well_formed T -> degenerate T -> nc ∈ df_columns T -> column_len nc.2 = 0%nat.
Proof.
  intros [Hlen _] [H0|H0] Hin.
  - rewrite Forall_forall in Hlen. by rewrite (Hlen nc Hin).
  - rewrite H0 in Hin. by apply elem_of_nil in Hin.
Qed.

Lemma isnull_no_cells c : column_len c = 0%nat -> isnull c = [].
Proof. by destruct c as [[|]|[|]|[|]|[|]|[|]]. Qed.

Lemma degenerate_no_missing T :
  well_formed T -> degenerate T -> ~ has_missing T.
Proof.
  intros Hwf Hd (nc & Hin & Hm).
  rewrite (isnull_no_cells _ (degenerate_no_cells T nc Hwf Hd Hin)) in Hm.
  by apply elem_of_nil in Hm.
Qed.

Lemma degenerate_percentage T nc t :
  well_formed T -> degenerate T -> nc ∈ df_columns T ->
  F64.gtb (missing_percentage T nc.2) t = false.
Proof.
  intros Hwf Hd Hin. unfold missing_percentage, missing_count.
  rewrite (isnull_no_cells _ (degenerate_no_cells T nc Hwf Hd Hin)).
  destruct Hd as [->|Hd]; [apply F64Facts.nan_not_gt|].
  rewrite Hd in Hin. by apply elem_of_nil in Hin.
Qed.

Lemma column_to_float_no_cells {conv : FloatOfStr} c :
  column_len c = 0%nat -> column_to_float c = Ok [].
Proof. by destruct c as [[|]|[|]|[|]|[|]|[|]]. Qed.

Lemma all_ok_empty {A} (l : list (outcome (list A))) :
  Forall (fun o => o = Ok []) l ->
  exists r, all_ok l = Ok r /\ Forall (fun x => x = []) r.
Proof.
  induction 1 as [|o l -> _ (r & Hr & Hall)]; simpl; [by exists []|].
  rewrite Hr. exists ([] :: r). split; [done|]. by constructor.
Qed.

Lemma degenerate_to_numpy_float {conv : FloatOfStr} T :
  well_formed T -> degenerate T ->
  exists mat, to_numpy_float T = Ok mat /\ Forall (fun x => x = []) mat.
Proof.
  intros Hwf Hd. apply all_ok_empty, Forall_fmap, Forall_forall.
  intros nc Hin. simpl. apply column_to_float_no_cells.
  by apply (degenerate_no_cells T).
Qed.

Lemma abs_corr_no_cells mat i j t :
  Forall (fun x => x = []) mat -> F64.geb (abs_corr mat i j) t = false.
Proof.
  intros Hmat. unfold abs_corr, nancorr.entry.
  assert (forall k, mat !!! k = []) as Hk.
  { intros k. rewrite list_lookup_total_alt.
    destruct (mat !! k) as [x|] eqn:Hx; [|done].
    rewrite Forall_forall in Hmat. eapply Hmat, list_elem_of_lookup_2, Hx. }
  rewrite !Hk. apply F64Facts.nan_not_ge.
Qed.

Lemma find_missing_values_none h r T :
  h !! r = Some T -> ~ has_missing T ->
  find_missing_values r h
  = (Ok (Message "There are no missing values in the DataFrame."), h).
Proof.
  intros Hr Hn. unfold find_missing_values.
  rewrite (bind_run _ _ _ _ _ (isnull_sum_run h r T Hr)).
  apply series_sum_zero, Z.eqb_eq in Hn. by rewrite Hn.
Qed.

(** C10. On a table without rows or without columns none of the five
    functions raises.  [find_missing_values] returns the message;
    [drop_columns_with_high_missing_values] drops no column, whatever the
    threshold, since the percentage [0/0] is [nan] and [nan > t] is false;
    [drop_highly_correlated_variables] drops no column either; the other
    two return frames of the same row count. *)
Theorem degenerate_tables_do_not_raise {conv : FloatOfStr} :
  forall (h : heap) (r : ref) (T : DataFrame) (t : float) (L : list string),
    h !! r = Some T ->
    well_formed T ->
    degenerate T ->
    find_missing_values r h
    = (Ok (Message "There are no missing values in the DataFrame."), h) /\
    drop_columns_with_high_missing_values r t h
    = (Ok (length h), h ++ [T]) /\
    separate_categorical_numerical r h
    = (Ok (length h, S (length h)),
       h ++ [select_dtypes true T; select_dtypes false T]) /\
    (exists E,
        label_encode_categorical_variables r L h
        = (Ok (length h), h ++ [E]) /\
        df_len E = df_len T /\ column_names E = column_names T) /\
    drop_highly_correlated_variables r t h = (Ok (length h), h ++ [T]).
Proof.
  intros h r T t L Hr Hwf Hd. repeat split.
  - apply (find_missing_values_none h r T); [done|].
    by apply degenerate_no_missing.
  - rewrite (drop_columns_with_high_missing_values_run h r T t Hr).
    rewrite drop_columns_none; [done|].
    intros [n c] Hin (c' & Hin' & Hp)%elem_of_high_missing_labels.
    pose proof (degenerate_percentage T (n, c') t Hwf Hd Hin') as Hq.
    simpl in Hq. congruence.
  - unfold separate_categorical_numerical.
    rewrite (bind_run _ _ _ _ _ (select_dtypes_run h r T Hr true)).
    rewrite (bind_run _ _ _ _ _
               (select_dtypes_run (h ++ [select_dtypes true T]) r T
                  (lookup_old h _ r T Hr) false)).
    unfold ret. by rewrite length_app, Nat.add_1_r, <-app_assoc.
  - destruct (label_encode_run h r T L Hr Hwf) as (E & Hrun & _ & HE).
    exists E. split; [done|]. split; [apply HE|].
    by eapply encoded_columns_names.
  - destruct (degenerate_to_numpy_float T Hwf Hd) as (mat & Hmat & Hempty).
    rewrite (drop_highly_correlated_variables_run h r T t mat Hr Hmat).
    rewrite drop_columns_none; [done|].
    intros nc _ Hx%elem_of_elements.
    destruct Hwf as [_ Hnd].
    apply elem_of_high_corr_labels in Hx as (i & j & _ & _ & _ & Hb);
      [|done|by apply to_numpy_float_length].
    by rewrite abs_corr_no_cells in Hb.
Qed.

Lemma example_empty_well_formed : well_formed example_empty.
Proof. compute_done. Qed.

Lemma degenerate_tables_do_not_raise_witness :
  [example_empty] !! 0%nat = Some example_empty /\
  well_formed example_empty /\
  degenerate example_empty /\
  drop_columns_with_high_missing_values 0%nat default_threshold [example_empty]
  = (Ok 1%nat, [example_empty] ++ [example_empty]) /\
  drop_highly_correlated_variables (conv := decimal) 0%nat default_threshold
    [example_empty]
  = (Ok 1%nat, [example_empty] ++ [example_empty]).
Proof.
  split; [reflexivity|]. split; [exact example_empty_well_formed|].
  split; [left; reflexivity|].
  destruct (degenerate_tables_do_not_raise (conv := decimal)
              [example_empty] 0%nat example_empty default_threshold
              ["B"%string] eq_refl example_empty_well_formed
              (or_introl eq_refl))
    as (_ & Hdrop & _ & _ & Hcorr).
  split; [exact Hdrop|exact Hcorr].
Defined.

(** ** The caller's table *)

Lemma getitem_run h r T label :
  h !! r = Some T ->
  pd.getitem r label h
  = (match lookup_label label (df_columns T) with
     | Some c => Ok c
     | None => Raise (KeyError label)
     end, h).
Proof.
  intros Hr. unfold pd.getitem.
  rewrite (bind_run _ _ _ _ _ (deref_run h r T Hr)).
  by destruct (lookup_label label (df_columns T)).
Qed.

Lemma setitem_run h r T label col :
  h !! r = Some T ->
  pd.setitem r label col h
  = if decide (column_len col = df_len T) then
      (Ok tt,
       <[r := mkDataFrame (df_len T) (assign_column label col (df_columns T))]> h)
    else (Raise ValueError, h).
Proof.
  intros Hr. unfold pd.setitem.
  rewrite (bind_run _ _ _ _ _ (deref_run h r T Hr)).
  by destruct (decide (column_len col = df_len T)).
Qed.

(** The loop of [label_encode_categorical_variables] writes to the copy
    only, whether or not it runs to the end. *)
Lemma encode_step_frame (h : heap) (x : string) (E : DataFrame) :
  exists o E1,
    (cols <- pd.columns (length h) ;;
     if decide (x ∈ cols) then
       y <- pd.getitem (length h) x ;;
       pd.setitem (length h) x (sklearn.fit_transform y)
     else ret tt) (h ++ [E])
    = (o, h ++ [E1]).
Proof.
  rewrite (bind_run _ _ _ _ _ (columns_run _ _ E (lookup_alloc h E))).
  destruct (decide (x ∈ column_names E)) as [_|_]; [|by exists (Ok tt), E].
  unfold bind. rewrite (getitem_run _ _ E x (lookup_alloc h E)).
  destruct (lookup_label x (df_columns E)) as [c|];
    [|by exists (Raise (KeyError x)), E].
  rewrite (setitem_run _ _ E x _ (lookup_alloc h E)).
  destruct (decide (column_len (sklearn.fit_transform c) = df_len E)) as [_|_];
    [|by exists (Raise ValueError), E].
  rewrite insert_app_r_alt, Nat.sub_diag by done. simpl. eauto.
Qed.

Lemma encode_loop_frame (h : heap) (L : list string) (E : DataFrame) :
  exists o E',
    for_each L
      (fun column : string =>
         cols <- pd.columns (length h) ;;
         if decide (column ∈ cols) then
           y <- pd.getitem (length h) column ;;
           pd.setitem (length h) column (sklearn.fit_transform y)
         else ret tt)
      (h ++ [E])
    = (o, h ++ [E']).
Proof.
  revert E. induction L as [|x L IH]; intros E; [by exists (Ok tt), E|].
  cbn [for_each]. unfold bind at 1.
  destruct (encode_step_frame h x E) as (o & E1 & ->).
  destruct o as [[]|e]; [apply IH|by exists (Raise e), E1].
Qed.

(** C8. None of the five functions modifies the table it is given: after
    the call, whether it returned or raised, the caller's reference holds
    the frame it held before, with the same columns, values and order. *)
Theorem input_table_unmodified {conv : FloatOfStr} :
  forall (h : heap) (r : ref) (T : DataFrame) (t : float) (L : list string),
    h !! r = Some T ->
    (find_missing_values r h).2 !! r = Some T /\
    (drop_columns_with_high_missing_values r t h).2 !! r = Some T /\
    (separate_categorical_numerical r h).2 !! r = Some T /\
    (label_encode_categorical_variables r L h).2 !! r = Some T /\
    (drop_highly_correlated_variables r t h).2 !! r = Some T.
Proof.
  intros h r T t L Hr. repeat split.
  - unfold find_missing_values.
    rewrite (bind_run _ _ _ _ _ (isnull_sum_run h r T Hr)).
    destruct (series_sum (isnull_sum T) =? 0); [done|].
    by rewrite (bind_run _ _ _ _ _ (len_run h r T Hr)).
  - rewrite (drop_columns_with_high_missing_values_run h r T t Hr).
    by apply lookup_old.
  - unfold separate_categorical_numerical.
    rewrite (bind_run _ _ _ _ _ (select_dtypes_run h r T Hr true)).
    rewrite (bind_run _ _ _ _ _
               (select_dtypes_run (h ++ [select_dtypes true T]) r T
                  (lookup_old h _ r T Hr) false)).
    simpl. by apply lookup_old, lookup_old.
  - unfold label_encode_categorical_variables.
    rewrite (bind_run _ _ _ _ _ (copy_run h r T Hr)).
    destruct (encode_loop_frame h L T) as (o & E' & Hloop).
    unfold bind at 1. rewrite Hloop. destruct o; by apply lookup_old.
  - unfold drop_highly_correlated_variables.
    destruct (to_numpy_float T) as [mat|e] eqn:Hmat.
    + fold (drop_highly_correlated_variables r t h).
      rewrite (drop_highly_correlated_variables_run h r T t mat Hr Hmat).
      by apply lookup_old.
    + unfold bind at 1, pd_corr_abs.
      rewrite (bind_run _ _ _ _ _ (deref_run h r T Hr)), Hmat. done.
Qed.

Lemma input_table_unmodified_witness :
  [example_missing] !! 0%nat = Some example_missing /\
  (label_encode_categorical_variables 0%nat ["B"%string] [example_missing]).2
    !! 0%nat = Some example_missing /\
  (drop_columns_with_high_missing_values 0%nat default_threshold
     [example_missing]).2 !! 0%nat = Some example_missing.
Proof.
  split; [reflexivity|].
  destruct (input_table_unmodified (conv := decimal)
              [example_missing] 0%nat example_missing
              default_threshold ["B"%string] eq_refl)
    as (_ & Hdrop & _ & Hencode & _).
  split; [exact Hencode|exact Hdrop].
Defined.

(** * Further properties *)

(** ** The codes of a column are determined *)

(** Two lists of codes that are ordered alike and both fill an initial
    segment of the naturals are the same list. *)
Lemma codes_below_agree (ys zs : list Z) n :
  length ys = length zs ->
  (forall i j y y' z z',
      ys !! i = Some y -> ys !! j = Some y' ->
      zs !! i = Some z -> zs !! j = Some z' ->
      (y ?= y') = (z ?= z')) ->
  (forall c, c ∈ ys -> 0 <= c /\ forall k, 0 <= k < c -> k ∈ ys) ->
  (forall c, c ∈ zs -> 0 <= c /\ forall k, 0 <= k < c -> k ∈ zs) ->
  (forall m, 0 <= m < n ->
     forall i y z, ys !! i = Some y -> zs !! i = Some z -> y = m <-> z = m) ->
  forall i y z, ys !! i = Some y -> zs !! i = Some z -> y = n -> z = n.
Proof.
  intros Hlen Hord Hdy Hdz IH i y z Hy Hz ->.
  destruct (Hdz z) as [Hz0 Hzk]; [by eapply list_elem_of_lookup_2|].
  destruct (Hdy n) as [Hn0 Hnk]; [by eapply list_elem_of_lookup_2|].
  destruct (Z.lt_trichotomy z n) as [Hlt|[Heq|Hgt]]; [|done|].
  - exfalso.
    assert (z ∈ ys) as [j Hj]%list_elem_of_lookup by (apply Hnk; lia).
    destruct (lookup_lt_is_Some_2 zs j) as [zj Hzj];
      [rewrite <-Hlen; eapply lookup_lt_Some, Hj|].
    assert (zj = z) as -> by (by apply (IH z ltac:(lia) j z zj)).
    pose proof (Hord j i z n z z Hj Hy Hzj Hz) as Ho.
    rewrite Z.compare_refl in Ho. apply Z.compare_eq in Ho. lia.
  - exfalso.
    assert (n ∈ zs) as [j Hj]%list_elem_of_lookup by (apply Hzk; lia).
    destruct (lookup_lt_is_Some_2 ys j) as [yj Hyj];
      [rewrite Hlen; eapply lookup_lt_Some, Hj|].
    pose proof (Hord j i yj n n z Hyj Hy Hj Hz) as Ho.
    assert ((n ?= z) = Lt) as Hnz by (by apply Z.compare_lt_iff).
    rewrite Hnz in Ho. change (yj < n) in Ho.
    destruct (Hdy yj) as [Hyj0 _]; [by eapply list_elem_of_lookup_2|].
    assert (n = yj); [|lia].
    by apply (IH yj ltac:(lia) j yj n).
Qed.

Lemma codes_unique (ys zs : list Z) :
  length ys = length zs ->
  (forall i j y y' z z',
      ys !! i = Some y -> ys !! j = Some y' ->
      zs !! i = Some z -> zs !! j = Some z' ->
      (y ?= y') = (z ?= z')) ->
  (forall c, c ∈ ys -> 0 <= c /\ forall k, 0 <= k < c -> k ∈ ys) ->
  (forall c, c ∈ zs -> 0 <= c /\ forall k, 0 <= k < c -> k ∈ zs) ->
  ys = zs.
Proof.
  intros Hlen Hord Hdy Hdz.
  assert (forall n, 0 <= n ->
            forall i y z, ys !! i = Some y -> zs !! i = Some z ->
                          y = n <-> z = n) as Hall.
  { intros n Hn. pattern n. apply Z_lt_induction; [|done].
    clear n Hn. intros n IH i y z Hy Hz. split.
    - by apply (codes_below_agree ys zs n Hlen Hord Hdy Hdz IH i y z).
    - refine (codes_below_agree zs ys n (eq_sym Hlen) _ Hdz Hdy _ i z y Hz Hy).
      + intros i' j' a a' b b' Ha Ha' Hb Hb'. symmetry.
        by apply (Hord i' j' b b' a a').
      + intros m Hm i' a b Ha Hb. symmetry. by apply (IH m Hm i' b a). }
  apply list_eq. intros i.
  destruct (ys !! i) as [y|] eqn:Hy.
  - destruct (lookup_lt_is_Some_2 zs i) as [z Hz];
      [rewrite <-Hlen; eapply lookup_lt_Some, Hy|].
    rewrite Hz. f_equal. symmetry.
    apply (Hall y (proj1 (Hdy y (list_elem_of_lookup_2 _ _ _ Hy))) i y z Hy Hz).
    done.
  - symmetry. apply lookup_ge_None. rewrite <-Hlen. by apply lookup_ge_None.
Qed.

Lemma label_encoding_unique {A} (cmp : A -> A -> comparison)
    (xs : list A) (ys zs : list Z) :
  label_encoding cmp xs ys -> label_encoding cmp xs zs -> ys = zs.
Proof.
  intros (Hl1 & Ho1 & Hd1) (Hl2 & Ho2 & Hd2).
  apply codes_unique; [congruence| |done|done].
  intros i j y y' z z' Hy Hy' Hz Hz'.
  destruct (lookup_lt_is_Some_2 xs i) as [x Hx];
    [rewrite <-Hl1; eapply lookup_lt_Some, Hy|].
  destruct (lookup_lt_is_Some_2 xs j) as [x' Hx'];
    [rewrite <-Hl1; eapply lookup_lt_Some, Hy'|].
  by rewrite (Ho1 i j x x' y y'), (Ho2 i j x x' z z').
Qed.

Lemma encodes_unique c codes codes' :
  encodes c codes -> encodes c codes' -> codes = codes'.
Proof. destruct c; apply label_encoding_unique. Qed.

(** Codes encode themselves, so encoding them again returns them. *)
Lemma label_encoding_self (codes : list Z) :
  (forall c, c ∈ codes -> 0 <= c /\ forall k, 0 <= k < c -> k ∈ codes) ->
  label_encoding Z.compare codes codes.
Proof.
  intros Hd. split; [done|]. split; [|done].
  intros i j x y cx cy Hx Hy Hcx Hcy. congruence.
Qed.

Lemma fit_transform_codes c codes :
  encodes c codes -> sklearn.fit_transform (Int64 codes) = Int64 codes.
Proof.
  intros Hc. simpl. f_equal. symmetry.
  apply (label_encoding_unique Z.compare codes);
    [|apply fit_transform_with_encoding; apply _].
  apply label_encoding_self. by destruct c; destruct Hc as (_ & _ & ?).
Qed.

(** On a table with rows the frame that [encoded_columns] describes is [T]
    with the listed columns passed through [fit_transform] once. *)
Lemma encoded_columns_fit_transform S T E :
  well_formed T -> df_len T ≠ 0%nat ->
  encoded_columns S T E ->
  df_columns E
  = (fun nc => if decide (nc.1 ∈ S)
               then (nc.1, sklearn.fit_transform nc.2) else nc)
      <$> df_columns T.
Proof.
  intros [Hlen _] Hrows [_ Hcols]. revert Hlen.
  induction Hcols as [|[n c] [n' c'] l l' [Hn Hc] _ IH]; [done|].
  intros [Hl Hlen]%Forall_cons.
  rewrite fmap_cons, IH by done. f_equal. simpl in *. subst n'.
  destruct (decide (n ∈ S)); [|by subst].
  destruct (fit_transform_cells c) as (codes' & -> & Hc'); [congruence|].
  destruct Hc as (codes & Hc & [->|(_ & Hnone & _)]); [|congruence].
  by rewrite (encodes_unique c codes codes').
Qed.

Lemma encoded_columns_unique S T E E' :
  well_formed T -> df_len T ≠ 0%nat ->
  encoded_columns S T E -> encoded_columns S T E' -> E = E'.
Proof.
  intros Hwf Hrows HE HE'.
  pose proof (encoded_columns_fit_transform S T E Hwf Hrows HE) as Hc.
  pose proof (encoded_columns_fit_transform S T E' Hwf Hrows HE') as Hc'.
  destruct HE as [Hl _], HE' as [Hl' _], E, E'; simpl in *. congruence.
Qed.

(** ** More on [label_encode_categorical_variables] *)

Lemma label_encode_categorical_variables_closed_form_aux h r T L :
  h !! r = Some T ->
  well_formed T ->
  df_len T ≠ 0%nat ->
  label_encode_categorical_variables r L h
  = (Ok (length h),
     h ++ [mkDataFrame (df_len T)
             ((fun nc => if decide (nc.1 ∈ L)
                         then (nc.1, sklearn.fit_transform nc.2) else nc)
                <$> df_columns T)]).
Proof.
  intros Hr Hwf Hrows.
  destruct (label_encode_run h r T L Hr Hwf) as (E & -> & _ & HE).
  do 3 f_equal. rewrite <-(encoded_columns_fit_transform L T E Hwf Hrows HE).
  destruct HE as [<- _]. by destruct E.
Qed.

(** X1. The result in closed form, for a table with at least one row: the
    table with every listed column passed through [fit_transform] once,
    however often and in whatever order its label is listed.  (Without
    rows a second pass shows: it turns the empty float64 array of a text
    column into the empty int64 array.) *)
Theorem label_encode_categorical_variables_closed_form :
  forall (h : heap) (r : ref) (T : DataFrame) (L : list string),
    h !! r = Some T ->
    well_formed T ->
    df_len T ≠ 0%nat ->
    label_encode_categorical_variables r L h
    = (Ok (length h),
       h ++ [mkDataFrame (df_len T)
               ((fun nc => if decide (nc.1 ∈ L)
                           then (nc.1, sklearn.fit_transform nc.2) else nc)
                  <$> df_columns T)]).
Proof.
  intros h r T L. apply label_encode_categorical_variables_closed_form_aux.
Qed.

Lemma example_missing_rows : df_len example_missing ≠ 0%nat.
Proof. discriminate. Qed.

Lemma label_encode_categorical_variables_closed_form_witness :
  [example_missing] !! 0%nat = Some example_missing /\
  well_formed example_missing /\
  df_len example_missing ≠ 0%nat /\
  label_encode_categorical_variables 0%nat ["B"; "B"]%string [example_missing]
  = (Ok 1%nat,
     [example_missing] ++
     [mkDataFrame 4
        [("A"%string, Float64 [1%float; 2%float; PrimFloat.nan; 4%float]);
         ("B"%string, Int64 [0; 1; 0; 2])]]).
Proof.
  split; [reflexivity|]. split; [exact example_missing_well_formed|].
  split; [exact example_missing_rows|].
  exact (label_encode_categorical_variables_closed_form
           [example_missing] 0%nat example_missing ["B"; "B"]%string
           eq_refl example_missing_well_formed example_missing_rows).
Defined.

(** X2. On a table with at least one row neither the order of the labels
    nor a repeated label matters: two lists with the same members give the
    same result. *)
Theorem label_encode_categorical_variables_same_members :
  forall (h : heap) (r : ref) (T : DataFrame) (L L' : list string),
    h !! r = Some T ->
    well_formed T ->
    df_len T ≠ 0%nat ->
    (forall n, n ∈ L <-> n ∈ L') ->
    label_encode_categorical_variables r L h
    = label_encode_categorical_variables r L' h.
Proof.
  intros h r T L L' Hr Hwf Hrows Hsame.
  destruct (label_encode_run h r T L Hr Hwf) as (E & -> & _ & HE).
  destruct (label_encode_run h r T L' Hr Hwf) as (E' & -> & _ & HE').
  do 3 f_equal. apply (encoded_columns_unique L' T); [done|done| |done].
  by apply (encoded_columns_iff L L').
Qed.

Lemma label_encode_categorical_variables_same_members_witness :
  [example_missing] !! 0%nat = Some example_missing /\
  well_formed example_missing /\
  df_len example_missing ≠ 0%nat /\
  (forall n, n ∈ ["A"; "B"; "A"]%string <-> n ∈ ["B"; "A"]%string) /\
  label_encode_categorical_variables 0%nat ["A"; "B"; "A"]%string
    [example_missing]
  = label_encode_categorical_variables 0%nat ["B"; "A"]%string
      [example_missing].
Proof.
  assert (forall n, n ∈ ["A"; "B"; "A"]%string <-> n ∈ ["B"; "A"]%string)
    as Hsame.
  { intros n. rewrite !elem_of_cons. tauto. }
  split; [reflexivity|]. split; [exact example_missing_well_formed|].
  split; [exact example_missing_rows|]. split; [exact Hsame|].
  exact (label_encode_categorical_variables_same_members
           [example_missing] 0%nat example_missing _ _
           eq_refl example_missing_well_formed example_missing_rows Hsame).
Defined.

Lemma refit_encoded S T E :
  well_formed T -> df_len T ≠ 0%nat ->
  encoded_columns S T E ->
  (fun nc => if decide (nc.1 ∈ S)
             then (nc.1, sklearn.fit_transform nc.2) else nc)
    <$> df_columns E
  = df_columns E.
Proof.
  intros [Hlen _] Hrows [_ Hcols]. revert Hlen.
  induction Hcols as [|nc [n' c'] l l' [Hn Hc] _ IH]; [done|].
  intros [Hl Hlen]%Forall_cons.
  rewrite fmap_cons, IH by done. f_equal. simpl in *. subst n'.
  destruct (decide (nc.1 ∈ S)); [|done].
  destruct Hc as (codes & Hc & [->|(_ & Hnone & _)]); [|congruence].
  by rewrite (fit_transform_codes nc.2).
Qed.

(** X3. On a table with at least one row encoding is idempotent: encoding
    the returned frame with the same list returns a frame with the same
    contents. *)
Theorem label_encode_categorical_variables_idempotent :
  forall (h : heap) (r : ref) (T : DataFrame) (L : list string),
    h !! r = Some T ->
    well_formed T ->
    df_len T ≠ 0%nat ->
    exists E,
      label_encode_categorical_variables r L h = (Ok (length h), h ++ [E]) /\
      label_encode_categorical_variables (length h) L (h ++ [E])
      = (Ok (S (length h)), h ++ [E; E]).
Proof.
  intros h r T L Hr Hwf Hrows.
  destruct (label_encode_run h r T L Hr Hwf) as (E & Hrun & _ & HE).
  exists E. split; [exact Hrun|].
  pose proof (encoded_columns_well_formed L T E Hwf HE) as HwfE.
  assert (df_len E ≠ 0%nat) as HrowsE by (destruct HE as [-> _]; done).
  rewrite (label_encode_categorical_variables_closed_form_aux
             (h ++ [E]) (length h) E L (lookup_alloc h E) HwfE HrowsE).
  rewrite (refit_encoded L T E Hwf Hrows HE), length_app, Nat.add_1_r,
    <-app_assoc.
  by destruct E.
Qed.

Lemma label_encode_categorical_variables_idempotent_witness :
  [example_missing] !! 0%nat = Some example_missing /\
  well_formed example_missing /\
  df_len example_missing ≠ 0%nat /\
  exists E,
    label_encode_categorical_variables 0%nat ["A"; "B"]%string [example_missing]
    = (Ok 1%nat, [example_missing] ++ [E]) /\
    label_encode_categorical_variables 1%nat ["A"; "B"]%string
      ([example_missing] ++ [E])
    = (Ok 2%nat, [example_missing] ++ [E; E]).
Proof.
  split; [reflexivity|]. split; [exact example_missing_well_formed|].
  split; [exact example_missing_rows|].
  exact (label_encode_categorical_variables_idempotent
           [example_missing] 0%nat example_missing ["A"; "B"]%string
           eq_refl example_missing_well_formed example_missing_rows).
Defined.

Lemma insert_unique_length {A} (cmp : A -> A -> comparison) x (l : list A) :
  (length (sklearn.insert_unique cmp x l) <= S (length l))%nat.
Proof.
  induction l as [|y l IH]; simpl; [done|].
  destruct (cmp x y); simpl; lia.
Qed.

Lemma unique_length {A} (cmp : A -> A -> comparison) (xs : list A) :
  (length (sklearn.unique cmp xs) <= length xs)%nat.
Proof.
  induction xs as [|x xs IH]; simpl; [done|].
  pose proof (insert_unique_length cmp x (sklearn.unique cmp xs)). lia.
Qed.

Lemma fit_transform_with_range {A} (cmp : A -> A -> comparison)
    `{!CmpOrder cmp} (xs : list A) :
  Forall (fun k => 0 <= k < Z.of_nat (length xs))
    (sklearn.fit_transform_with cmp xs).
Proof.
  unfold sklearn.fit_transform_with. apply Forall_fmap, Forall_forall.
  intros x Hx. simpl.
  pose proof (index_in_nonneg cmp x (sklearn.unique cmp xs)).
  pose proof (index_in_bound cmp x _ (unique_has cmp x xs Hx)).
  pose proof (unique_length cmp xs). lia.
Qed.

Lemma fit_transform_range c :
  column_len c ≠ 0%nat ->
  exists codes,
    sklearn.fit_transform c = Int64 codes /\
    Forall (fun k => 0 <= k < Z.of_nat (column_len c)) codes.
Proof.
  intros Hlen. destruct c as [xs|xs|xs|xs|xs]; simpl.
  1-3: eexists; split; [reflexivity|]; apply fit_transform_with_range; apply _.
  all: destruct xs as [|x xs]; [done|];
    exists (sklearn.fit_transform_with sklearn.text_cmp (x :: xs));
    split; [reflexivity|]; apply fit_transform_with_range; apply _.
Qed.

(** X4. Every code of an encoded column is a natural number below the row
    count: the column is an int64 array of such codes, or, for a text
    column of a table without rows, the empty float64 array. *)
Theorem label_encode_categorical_variables_code_range :
  forall (h : heap) (r : ref) (T : DataFrame) (L : list string),
    h !! r = Some T ->
    well_formed T ->
    exists E,
      label_encode_categorical_variables r L h = (Ok (length h), h ++ [E]) /\
      forall i name c,
        df_columns T !! i = Some (name, c) ->
        name ∈ L ->
        (exists codes,
            df_columns E !! i = Some (name, Int64 codes) /\
            Forall (fun k => 0 <= k < Z.of_nat (df_len T)) codes) \/
        (is_object_or_category c = true /\ df_len T = 0%nat /\
         df_columns E !! i = Some (name, Float64 [])).
Proof.
  intros h r T L Hr Hwf.
  destruct (label_encode_run h r T L Hr Hwf) as (E & Hrun & _ & HE).
  exists E. split; [exact Hrun|]. intros i name c Hi HL.
  assert (column_len c = df_len T) as Hlen.
  { destruct Hwf as [Hlen _]. rewrite Forall_forall in Hlen.
    apply (Hlen (name, c)). by eapply list_elem_of_lookup_2. }
  destruct (decide (df_len T = 0%nat)) as [Hnone|Hrows].
  - destruct HE as [_ HE].
    destruct (Forall2_lookup_l _ _ _ _ _ HE Hi) as ([n' c'] & Hi' & Hn & Hc).
    simpl in Hn, Hc. subst n'. rewrite decide_True in Hc by done.
    destruct Hc as (codes & Hc & [->|(Htext & _ & ->)]); [left|by right].
    exists codes. split; [done|].
    rewrite (encodes_no_cells c codes Hc) by congruence. constructor.
  - left. rewrite (encoded_columns_fit_transform L T E Hwf Hrows HE).
    rewrite list_lookup_fmap, Hi. simpl. rewrite decide_True by done.
    destruct (fit_transform_range c) as (codes & -> & Hrange); [congruence|].
    exists codes. split; [done|]. by rewrite <-Hlen.
Qed.

Lemma label_encode_categorical_variables_code_range_witness :
  [example_missing] !! 0%nat = Some example_missing /\
  well_formed example_missing /\
  exists E,
    label_encode_categorical_variables 0%nat ["B"]%string [example_missing]
    = (Ok 1%nat, [example_missing] ++ [E]) /\
    exists codes,
      df_columns E !! 1%nat = Some ("B"%string, Int64 codes) /\
      Forall (fun k => 0 <= k < 4) codes.
Proof.
  split; [reflexivity|]. split; [exact example_missing_well_formed|].
  destruct (label_encode_categorical_variables_code_range
              [example_missing] 0%nat example_missing ["B"]%string
              eq_refl example_missing_well_formed)
    as (E & Hrun & Hcodes).
  exists E. split; [exact Hrun|].
  destruct (Hcodes 1%nat "B"%string
              (Object [Some "x"; Some "y"; Some "x"; Some "z"]%string)
              eq_refl ltac:(by left))
    as [Hint|(_ & Hnone & _)]; [exact Hint|discriminate Hnone].
Defined.

(** X5. Encoding turns the missing marker into a code: an encoded column has
    no missing cell, and once every column is listed
    [find_missing_values] finds nothing in the result, whatever was
    missing in the table. *)
Theorem label_encode_categorical_variables_hides_missing :
  forall (h : heap) (r : ref) (T : DataFrame) (L : list string),
    h !! r = Some T ->
    well_formed T ->
    exists E,
      label_encode_categorical_variables r L h = (Ok (length h), h ++ [E]) /\
      (forall nc, nc ∈ df_columns E -> nc.1 ∈ L -> true ∉ isnull nc.2) /\
      ((forall n, n ∈ column_names T -> n ∈ L) ->
       find_missing_values (length h) (h ++ [E])
       = (Ok (Message "There are no missing values in the DataFrame."),
          h ++ [E])).
Proof.
  intros h r T L Hr Hwf.
  destruct (label_encode_run h r T L Hr Hwf) as (E & Hrun & _ & HE).
  exists E. split; [exact Hrun|].
  assert (forall nc, nc ∈ df_columns E -> nc.1 ∈ L -> true ∉ isnull nc.2)
    as Hnone.
  { intros nc' [i Hi']%list_elem_of_lookup HL.
    destruct HE as [_ HE].
    destruct (Forall2_lookup_r _ _ _ _ _ HE Hi') as (nc & Hi & Hn & Hc).
    rewrite Hn in HL. rewrite decide_True in Hc by done.
    destruct Hc as (codes & _ & [->|(_ & _ & ->)]); simpl.
    - by intros (b & Hb & _)%list_elem_of_fmap.
    - by intros ?%elem_of_nil. }
  split; [exact Hnone|]. intros Hall.
  apply (find_missing_values_none _ _ _ (lookup_alloc h _)).
  intros (nc' & Hin & Hm). apply (Hnone nc' Hin); [|done].
  apply Hall. rewrite <-(encoded_columns_names L T E HE).
  apply list_elem_of_fmap. by exists nc'.
Qed.

Lemma label_encode_categorical_variables_hides_missing_witness :
  [example_missing] !! 0%nat = Some example_missing /\
  well_formed example_missing /\
  has_missing example_missing /\
  exists E,
    label_encode_categorical_variables 0%nat ["A"; "B"]%string [example_missing]
    = (Ok 1%nat, [example_missing] ++ [E]) /\
    find_missing_values 1%nat ([example_missing] ++ [E])
    = (Ok (Message "There are no missing values in the DataFrame."),
       [example_missing] ++ [E]).
Proof.
  split; [reflexivity|]. split; [exact example_missing_well_formed|].
  split.
  { exists ("A"%string, Float64 [1%float; 2%float; PrimFloat.nan; 4%float]).
    split; [by left|]. simpl. right; right; by left. }
  destruct (label_encode_categorical_variables_hides_missing
              [example_missing] 0%nat example_missing ["A"; "B"]%string
              eq_refl example_missing_well_formed)
    as (E & Hrun & _ & Hfind).
  exists E. split; [exact Hrun|]. apply Hfind.
  intros n Hn. exact Hn.
Defined.

(** ** Thresholds *)

Lemma SFcompare_nan x y :
  F64.sf_is_nan x = true \/ F64.sf_is_nan y = true -> SFcompare x y = None.
Proof. by destruct x, y; intros [?|?]. Qed.

Lemma lex3_le_lt_trans a b c :
  F64.lex3 a b <> Gt -> F64.lex3 b c = Lt -> F64.lex3 a c = Lt.
Proof.
  destruct (F64.lex3 a b) eqn:Hab; [| |done]; intros _.
  - by apply F64Facts.lex3_Eq in Hab as ->.
  - by apply F64Facts.lex3_trans.
Qed.

Lemma lex3_le_le_trans a b c :
  F64.lex3 a b <> Gt -> F64.lex3 b c <> Gt -> F64.lex3 a c <> Gt.
Proof.
  destruct (F64.lex3 b c) eqn:Hbc; [| |done]; intros Hab _.
  - by apply F64Facts.lex3_Eq in Hbc as <-.
  - by rewrite (lex3_le_lt_trans a b c Hab Hbc).
Qed.

(** [t1 <= t2] and [t2 < p] give [t1 < p]; [t1 <= t2] and [t2 <= c] give
    [t1 <= c]. *)
Lemma gtb_leb_trans t1 t2 p :
  F64.leb t1 t2 = true -> F64.gtb p t2 = true -> F64.gtb p t1 = true.
Proof.
  unfold F64.leb, F64.gtb.
  rewrite FloatAxioms.leb_spec, !FloatAxioms.ltb_spec. unfold SFleb, SFltb.
  destruct (F64.sf_is_nan (Prim2SF t1)) eqn:H1;
    [by rewrite (SFcompare_nan (Prim2SF t1) (Prim2SF t2)) by auto|].
  destruct (F64.sf_is_nan (Prim2SF t2)) eqn:H2;
    [by rewrite (SFcompare_nan (Prim2SF t1) (Prim2SF t2)) by auto|].
  destruct (F64.sf_is_nan (Prim2SF p)) eqn:Hp;
    [by rewrite (SFcompare_nan (Prim2SF t2) (Prim2SF p)) by auto|].
  rewrite !F64Facts.SFcompare_key by done.
  intros Hle Hlt.
  rewrite (lex3_le_lt_trans (F64.key (Prim2SF t1)) (F64.key (Prim2SF t2))
             (F64.key (Prim2SF p))); [done| |].
  - by destruct (F64.lex3 (F64.key (Prim2SF t1)) (F64.key (Prim2SF t2))).
  - by destruct (F64.lex3 (F64.key (Prim2SF t2)) (F64.key (Prim2SF p))).
Qed.

Lemma geb_leb_trans t1 t2 c :
  F64.leb t1 t2 = true -> F64.geb c t2 = true -> F64.geb c t1 = true.
Proof.
  unfold F64.leb, F64.geb.
  rewrite !FloatAxioms.leb_spec. unfold SFleb.
  destruct (F64.sf_is_nan (Prim2SF t1)) eqn:H1;
    [by rewrite (SFcompare_nan (Prim2SF t1) (Prim2SF t2)) by auto|].
  destruct (F64.sf_is_nan (Prim2SF t2)) eqn:H2;
    [by rewrite (SFcompare_nan (Prim2SF t1) (Prim2SF t2)) by auto|].
  destruct (F64.sf_is_nan (Prim2SF c)) eqn:Hc;
    [by rewrite (SFcompare_nan (Prim2SF t2) (Prim2SF c)) by auto|].
  rewrite !F64Facts.SFcompare_key by done.
  intros Hle Hle'.
  pose proof (lex3_le_le_trans (F64.key (Prim2SF t1)) (F64.key (Prim2SF t2))
                (F64.key (Prim2SF c))) as Htrans.
  destruct (F64.lex3 (F64.key (Prim2SF t1)) (F64.key (Prim2SF t2)));
    destruct (F64.lex3 (F64.key (Prim2SF t2)) (F64.key (Prim2SF c)));
    try done;
    destruct (F64.lex3 (F64.key (Prim2SF t1)) (F64.key (Prim2SF c)));
    try done; by exfalso; apply Htrans.
Qed.

(** ** More on the missing-value functions *)

Lemma find_missing_values_run h r T :
  h !! r = Some T ->
  find_missing_values r h
  = (Ok (if series_sum (isnull_sum T) =? 0
         then Message "There are no missing values in the DataFrame."
         else Report (missing_rows T)), h).
Proof.
  intros Hr. unfold find_missing_values.
  rewrite (bind_run _ _ _ _ _ (isnull_sum_run h r T Hr)).
  destruct (series_sum (isnull_sum T) =? 0); [done|].
  rewrite (bind_run _ _ _ _ _ (len_run h r T Hr)). unfold ret.
  by rewrite report_rows.
Qed.

Lemma missing_rows_nil T : missing_rows T = [] <-> ~ has_missing T.
Proof.
  unfold missing_rows, has_missing. split.
  - intros Hnil%fmap_nil_inv (nc & Hin & Hm%missing_count_pos).
    assert (nc ∈ filter (fun nc => 0 < missing_count nc.2) (df_columns T)) as Hf
      by (by apply list_elem_of_filter).
    rewrite Hnil in Hf. by apply elem_of_nil in Hf.
  - intros Hn.
    destruct (filter (fun nc => 0 < missing_count nc.2) (df_columns T))
      as [|nc l] eqn:Hf; [done|].
    exfalso. apply Hn. exists nc.
    assert (nc ∈ filter (fun nc => 0 < missing_count nc.2) (df_columns T)) as Hin
      by (rewrite Hf; by left).
    apply list_elem_of_filter in Hin as [Hp Hin]. split; [done|].
    by apply missing_count_pos.
Qed.

Lemma missing_count_le c : missing_count c <= Z.of_nat (column_len c).
Proof.
  unfold missing_count.
  assert (length (isnull c) = column_len c) as <-
    by (destruct c; simpl; by rewrite length_fmap).
  pose proof (length_filter (fun b => b = true) (isnull c)). lia.
Qed.

(** X6. The report is never empty: [find_missing_values] returns the message
    or a report with at least one row; every row has its own label and a
    count between 1 and the row count. *)
Theorem find_missing_values_report_rows :
  forall (h : heap) (r : ref) (T : DataFrame),
    h !! r = Some T ->
    well_formed T ->
    exists res,
      find_missing_values r h = (Ok res, h) /\
      match res with
      | Message _ => True
      | Report rows =>
          rows <> [] /\ NoDup rows.*1 /\
          Forall (fun row => 1 <= row.2.1 <= Z.of_nat (df_len T)) rows
      end.
Proof.
  intros h r T Hr [Hlen Hnd]. eexists.
  split; [by apply find_missing_values_run|].
  destruct (series_sum (isnull_sum T) =? 0) eqn:Hs; [done|].
  apply Z.eqb_neq in Hs. rewrite series_sum_zero in Hs.
  split; [by rewrite missing_rows_nil|]. split.
  - unfold missing_rows. rewrite <-list_fmap_compose.
    eapply sublist_NoDup; [exact Hnd|]. apply fmap_sublist, sublist_filter.
  - unfold missing_rows. apply Forall_fmap, Forall_forall.
    intros nc [Hp Hin]%list_elem_of_filter. simpl.
    rewrite Forall_forall in Hlen. rewrite <-(Hlen nc Hin).
    pose proof (missing_count_le nc.2). lia.
Qed.

Lemma find_missing_values_report_rows_witness :
  [example_missing] !! 0%nat = Some example_missing /\
  well_formed example_missing /\
  exists res,
    find_missing_values 0%nat [example_missing] = (Ok res, [example_missing]) /\
    match res with
    | Message _ => True
    | Report rows =>
        rows <> [] /\ NoDup rows.*1 /\
        Forall (fun row => 1 <= row.2.1 <= 4) rows
    end.
Proof.
  split; [reflexivity|]. split; [exact example_missing_well_formed|].
  exact (find_missing_values_report_rows [example_missing] 0%nat
           example_missing eq_refl example_missing_well_formed).
Defined.

Lemma drop_columns_well_formed labels T :
  well_formed T -> well_formed (drop_columns labels T).
Proof.
  intros [Hlen Hnd]. split; simpl.
  - rewrite Forall_forall in Hlen |- *.
    intros nc [_ Hin]%list_elem_of_filter. by apply Hlen.
  - eapply sublist_NoDup; [exact Hnd|]. apply fmap_sublist, sublist_filter.
Qed.

(** X7. Both pruning functions return well-formed frames: the columns that are
    left have the row count of the table and distinct labels.
    [drop_columns_with_high_missing_values] does so on every well-formed
    table, [drop_highly_correlated_variables] whenever the table converts
    to float64. *)
Theorem pruned_tables_well_formed {conv : FloatOfStr} :
  forall (h : heap) (r : ref) (T : DataFrame) (t : float),
    h !! r = Some T ->
    well_formed T ->
    (exists T',
        drop_columns_with_high_missing_values r t h
        = (Ok (length h), h ++ [T']) /\ well_formed T') /\
    (forall mat,
        to_numpy_float T = Ok mat ->
        exists T',
          drop_highly_correlated_variables r t h
          = (Ok (length h), h ++ [T']) /\ well_formed T').
Proof.
  intros h r T t Hr Hwf. split.
  - eexists. split; [by apply drop_columns_with_high_missing_values_run|].
    by apply drop_columns_well_formed.
  - intros mat Hmat. eexists.
    split; [by apply drop_highly_correlated_variables_run|].
    by apply drop_columns_well_formed.
Qed.

Lemma pruned_tables_well_formed_witness :
  [example_missing] !! 0%nat = Some example_missing /\
  well_formed example_missing /\
  (exists T',
      drop_columns_with_high_missing_values 0%nat default_threshold
        [example_missing]
      = (Ok 1%nat, [example_missing] ++ [T']) /\ well_formed T') /\
  [example_correlated] !! 0%nat = Some example_correlated /\
  well_formed example_correlated /\
  to_numpy_float (conv := decimal) example_correlated
  = Ok [[1; 2; 3; 4]; [2; 4; 6; 8]]%float /\
  exists T',
    drop_highly_correlated_variables (conv := decimal) 0%nat default_threshold
      [example_correlated]
    = (Ok 1%nat, [example_correlated] ++ [T']) /\ well_formed T'.
Proof.
  split; [reflexivity|]. split; [exact example_missing_well_formed|].
  split.
  { exact (proj1 (pruned_tables_well_formed (conv := decimal)
                    [example_missing] 0%nat example_missing
                    default_threshold eq_refl example_missing_well_formed)). }
  split; [reflexivity|]. split; [exact example_correlated_well_formed|].
  split; [exact example_correlated_mat|].
  exact (proj2 (pruned_tables_well_formed (conv := decimal)
                  [example_correlated] 0%nat example_correlated
                  default_threshold eq_refl example_correlated_well_formed)
           _ example_correlated_mat).
Defined.

(** X8. Pruning by missing percentage is idempotent: on its own result, with
    the same threshold, the function drops nothing. *)
Theorem drop_columns_with_high_missing_values_idempotent :
  forall (h : heap) (r : ref) (T : DataFrame) (t : float),
    h !! r = Some T ->
    exists T',
      drop_columns_with_high_missing_values r t h
      = (Ok (length h), h ++ [T']) /\
      drop_columns_with_high_missing_values (length h) t (h ++ [T'])
      = (Ok (S (length h)), h ++ [T'; T']).
Proof.
  intros h r T t Hr. eexists.
  split; [by apply drop_columns_with_high_missing_values_run|].
  rewrite (drop_columns_with_high_missing_values_run _ _ _ t
             (lookup_alloc h _)).
  rewrite length_app, Nat.add_1_r, <-app_assoc. do 4 f_equal.
  apply drop_columns_none.
  intros nc [Hin Hkeep]%elem_of_drop_columns
    (c' & [Hin' _]%elem_of_drop_columns & Hp)%elem_of_high_missing_labels.
  apply Hkeep, elem_of_high_missing_labels. by exists c'.
Qed.

Lemma drop_columns_with_high_missing_values_idempotent_witness :
  [example_missing] !! 0%nat = Some example_missing /\
  exists T',
    drop_columns_with_high_missing_values 0%nat default_threshold
      [example_missing]
    = (Ok 1%nat, [example_missing] ++ [T']) /\
    drop_columns_with_high_missing_values 1%nat default_threshold
      ([example_missing] ++ [T'])
    = (Ok 2%nat, [example_missing] ++ [T'; T']).
Proof.
  split; [reflexivity|].
  exact (drop_columns_with_high_missing_values_idempotent
           [example_missing] 0%nat example_missing default_threshold eq_refl).
Defined.

Lemma filter_sublist_impl {A} (P Q : A -> Prop)
    `{!forall x, Decision (P x)} `{!forall x, Decision (Q x)} (l : list A) :
  (forall x, P x -> Q x) -> filter P l `sublist_of` filter Q l.
Proof.
  intros HPQ. induction l as [|x l IH]; [done|].
  rewrite !filter_cons.
  destruct (decide (P x)) as [HP|HP], (decide (Q x)) as [HQ|HQ].
  - by apply sublist_skip.
  - by apply HPQ in HP.
  - by apply sublist_cons.
  - done.
Qed.

(** X9. A larger threshold never drops more: what survives the pruning by
    missing percentage at [t1] survives it at every [t2 >= t1]. *)
Theorem drop_columns_with_high_missing_values_monotone :
  forall (h : heap) (r : ref) (T : DataFrame) (t1 t2 : float),
    h !! r = Some T ->
    F64.leb t1 t2 = true ->
    exists T1 T2,
      drop_columns_with_high_missing_values r t1 h
      = (Ok (length h), h ++ [T1]) /\
      drop_columns_with_high_missing_values r t2 h
      = (Ok (length h), h ++ [T2]) /\
      df_columns T1 `sublist_of` df_columns T2.
Proof.
  intros h r T t1 t2 Hr Hle. do 2 eexists.
  split; [by apply drop_columns_with_high_missing_values_run|].
  split; [by apply drop_columns_with_high_missing_values_run|].
  simpl. apply filter_sublist_impl. intros nc Hkeep.
  intros (c' & Hin & Hp)%elem_of_high_missing_labels.
  apply Hkeep, elem_of_high_missing_labels. exists c'. split; [done|].
  by apply (gtb_leb_trans t1 t2).
Qed.

Lemma drop_columns_with_high_missing_values_monotone_witness :
  [example_missing] !! 0%nat = Some example_missing /\
  F64.leb default_threshold 50%float = true /\
  exists T1 T2,
    drop_columns_with_high_missing_values 0%nat default_threshold
      [example_missing]
    = (Ok 1%nat, [example_missing] ++ [T1]) /\
    drop_columns_with_high_missing_values 0%nat 50%float [example_missing]
    = (Ok 1%nat, [example_missing] ++ [T2]) /\
    df_columns T1 `sublist_of` df_columns T2.
Proof.
  split; [reflexivity|]. split; [reflexivity|].
  exact (drop_columns_with_high_missing_values_monotone
           [example_missing] 0%nat example_missing default_threshold 50%float
           eq_refl eq_refl).
Defined.

Lemma filter_ext_elem {A} (P Q : A -> Prop)
    `{!forall x, Decision (P x)} `{!forall x, Decision (Q x)} (l : list A) :
  (forall x, x ∈ l -> P x <-> Q x) -> filter P l = filter Q l.
Proof.
  induction l as [|x l IH]; intros HPQ; [done|].
  rewrite !filter_cons, IH by (intros y Hy; apply HPQ; by right).
  destruct (decide (P x)) as [HP|HP], (decide (Q x)) as [HQ|HQ]; try done;
    exfalso; apply (HPQ x ltac:(by left)) in HP || apply (HPQ x ltac:(by left)) in HQ;
    done.
Qed.

Lemma missing_rows_drop_columns T t :
  well_formed T ->
  missing_rows (drop_columns (high_missing_labels T t) T)
  = filter (fun row : string * (Z * float) => F64.gtb row.2.2 t = false)
      (missing_rows T).
Proof.
  intros [_ Hnd]. unfold missing_rows. simpl.
  rewrite (filter_fmap_iff _
             (fun row : string * (Z * float) => F64.gtb row.2.2 t = false)
             (fun nc => F64.gtb (missing_percentage T nc.2) t = false))
    by done.
  unfold missing_percentage at 1. simpl. fold (missing_percentage T).
  f_equal. rewrite !list_filter_filter. apply filter_ext_elem.
  intros [n c] Hin. simpl.
  assert (n ∉ high_missing_labels T t
          <-> F64.gtb (missing_percentage T c) t = false) as ->; [|tauto].
  rewrite elem_of_high_missing_labels. split.
  - intros Hnot. destruct (F64.gtb (missing_percentage T c) t) eqn:Hp; [|done].
    exfalso. apply Hnot. eauto.
  - intros Hp (c' & Hin' & Hp').
    rewrite (NoDup_names_inj _ _ _ _ Hnd Hin Hin') in Hp. congruence.
Qed.

(** X10. Pruning and reporting compose: the report of the pruned table is the
    report of the table without the rows whose percentage exceeds the
    threshold, and the message when no row is left. *)
Theorem report_after_pruning :
  forall (h : heap) (r : ref) (T : DataFrame) (t : float),
    h !! r = Some T ->
    well_formed T ->
    exists T',
      drop_columns_with_high_missing_values r t h
      = (Ok (length h), h ++ [T']) /\
      forall res,
        find_missing_values r h = (Ok res, h) ->
        find_missing_values (length h) (h ++ [T'])
        = (Ok match res with
              | Message m => Message m
              | Report rows =>
                  match filter (fun row : string * (Z * float) =>
                                  F64.gtb row.2.2 t = false) rows with
                  | [] =>
                      Message "There are no missing values in the DataFrame."
                  | rows' => Report rows'
                  end
              end,
           h ++ [T']).
Proof.
  intros h r T t Hr Hwf. eexists.
  split; [by apply drop_columns_with_high_missing_values_run|].
  intros res. rewrite (find_missing_values_run h r T Hr). intros [= <-].
  rewrite (find_missing_values_run _ _ _ (lookup_alloc h _)).
  do 2 f_equal.
  set (T' := drop_columns (high_missing_labels T t) T).
  destruct (series_sum (isnull_sum T) =? 0) eqn:Hs.
  - apply Z.eqb_eq, series_sum_zero in Hs.
    assert (~ has_missing T') as Hn.
    { intros (nc & [Hin _]%elem_of_drop_columns & Hm). apply Hs. by exists nc. }
    apply series_sum_zero, Z.eqb_eq in Hn. by rewrite Hn.
  - rewrite <-(missing_rows_drop_columns T t Hwf). fold T'.
    destruct (series_sum (isnull_sum T') =? 0) eqn:Hs'.
    + apply Z.eqb_eq, series_sum_zero, missing_rows_nil in Hs'.
      by rewrite Hs'.
    + apply Z.eqb_neq in Hs'.
      rewrite series_sum_zero, <-missing_rows_nil in Hs'.
      by destruct (missing_rows T').
Qed.

Lemma report_after_pruning_witness :
  [example_missing] !! 0%nat = Some example_missing /\
  well_formed example_missing /\
  exists T',
    drop_columns_with_high_missing_values 0%nat 50%float [example_missing]
    = (Ok 1%nat, [example_missing] ++ [T']) /\
    find_missing_values 1%nat ([example_missing] ++ [T'])
    = (Ok (Report [("A"%string, (1, 25%float))]), [example_missing] ++ [T']).
Proof.
  split; [reflexivity|]. split; [exact example_missing_well_formed|].
  destruct (report_after_pruning [example_missing] 0%nat example_missing
              50%float eq_refl example_missing_well_formed)
    as (T' & Hrun & Hreport).
  exists T'. split; [exact Hrun|].
  exact (Hreport (Report [("A"%string, (1, 25%float))]) eq_refl).
Defined.

(** ** More on [drop_highly_correlated_variables] *)

Lemma all_ok_fmap_Forall2 {A B} (f : A -> outcome B) (l : list A) r :
  all_ok (f <$> l) = Ok r -> Forall2 (fun x y => f x = Ok y) l r.
Proof.
  revert r. induction l as [|x l IH]; intros r.
  - intros [= <-]. constructor.
  - rewrite fmap_cons. cbn [all_ok].
    destruct (f x) as [y|e] eqn:Hx; [|by intros [=]].
    destruct (all_ok (f <$> l)) as [r'|e]; [|by intros [=]].
    intros [= <-]. constructor; [done|]. by apply IH.
Qed.

Lemma all_ok_fmap_intro {A B} (f : A -> outcome B) (l : list A) :
  Forall (fun x => exists y, f x = Ok y) l -> exists r, all_ok (f <$> l) = Ok r.
Proof.
  induction 1 as [|x l [y Hy] _ [r Hr]]; [by exists []|].
  rewrite fmap_cons. cbn [all_ok]. rewrite Hy, Hr. by exists (y :: r).
Qed.

(** [filter] keeps the order of what it keeps. *)
Lemma filter_lookup_lt {A} (P : A -> Prop) `{!forall x, Decision (P x)}
    (l : list A) (i' j' : nat) a b :
  (i' < j')%nat ->
  filter P l !! i' = Some a -> filter P l !! j' = Some b ->
  exists i j, (i < j)%nat /\ l !! i = Some a /\ l !! j = Some b.
Proof.
  revert i' j'. induction l as [|x l IH]; intros i' j' Hlt;
    [by rewrite filter_nil|].
  rewrite filter_cons. destruct (decide (P x)) as [_|_].
  - destruct i' as [|i'], j' as [|j']; try lia; simpl.
    + intros [= ->] Hb.
      apply list_elem_of_lookup_2, list_elem_of_filter in Hb as [_ Hb].
      apply list_elem_of_lookup in Hb as [j Hj].
      exists 0%nat, (S j). split; [lia|done].
    + intros Ha Hb.
      destruct (IH i' j' ltac:(lia) Ha Hb) as (i & j & Hij & Hi & Hj).
      exists (S i), (S j). split; [lia|done].
  - intros Ha Hb.
    destruct (IH i' j' Hlt Ha Hb) as (i & j & Hij & Hi & Hj).
    exists (S i), (S j). split; [lia|done].
Qed.

Section Pruned.
Context {conv : FloatOfStr}.
Context (T : DataFrame) (mat : list (list float)) (labels : list string).
Context (Hwf : well_formed T) (Hmat : to_numpy_float T = Ok mat).

Local Abbreviation T' := (drop_columns labels T).

(** The pruned table converts to float as well, and its correlations are
    those of the same columns in the table. *)
Lemma pruned_to_numpy_float : exists mat', to_numpy_float T' = Ok mat'.
Proof using Hmat.
  apply all_ok_fmap_intro, Forall_forall.
  intros nc [_ Hin]%list_elem_of_filter.
  apply all_ok_fmap_Forall2 in Hmat.
  apply list_elem_of_lookup in Hin as [i Hi].
  destruct (Forall2_lookup_l _ _ _ _ _ Hmat Hi) as (m & _ & Hm). eauto.
Qed.

Lemma pruned_column mat' i' x :
  to_numpy_float T' = Ok mat' ->
  column_names T' !! i' = Some x ->
  exists i, column_names T !! i = Some x /\ mat' !!! i' = mat !!! i.
Proof using Hwf Hmat.
  intros Hmat' Hx. unfold column_names in Hx.
  rewrite list_lookup_fmap in Hx.
  destruct (df_columns T' !! i') as [[n c]|] eqn:Hi'; [|done].
  simpl in Hx. injection Hx as ->.
  apply all_ok_fmap_Forall2 in Hmat, Hmat'.
  destruct (Forall2_lookup_l _ _ _ _ _ Hmat' Hi') as (m' & Hm' & Hc').
  pose proof (list_elem_of_lookup_2 _ _ _ Hi') as Hin.
  apply list_elem_of_filter in Hin as [_ Hin].
  apply list_elem_of_lookup in Hin as [i Hi].
  destruct (Forall2_lookup_l _ _ _ _ _ Hmat Hi) as (m & Hm & Hc).
  exists i. split.
  - unfold column_names. by rewrite list_lookup_fmap, Hi.
  - rewrite (list_lookup_total_correct _ _ _ Hm'),
      (list_lookup_total_correct _ _ _ Hm). simpl in *. congruence.
Qed.

Lemma pruned_abs_corr_lt mat' i' j' x y :
  to_numpy_float T' = Ok mat' ->
  (i' < j')%nat ->
  column_names T' !! i' = Some x ->
  column_names T' !! j' = Some y ->
  exists i j,
    i ≠ j /\ column_names T !! i = Some x /\ column_names T !! j = Some y /\
    abs_corr mat' i' j' = abs_corr mat i j.
Proof using Hwf Hmat.
  intros Hmat' Hlt Hx Hy.
  destruct (pruned_column mat' i' x Hmat' Hx) as (i & Hi & Hmi).
  destruct (pruned_column mat' j' y Hmat' Hy) as (j & Hj & Hmj).
  assert (i < j)%nat as Hij.
  { unfold column_names in Hx, Hy. simpl in Hx, Hy.
    rewrite list_lookup_fmap in Hx, Hy.
    destruct (filter (fun nc => nc.1 ∉ labels) (df_columns T) !! i')
      as [[n c]|] eqn:Hi'; [|done].
    destruct (filter (fun nc => nc.1 ∉ labels) (df_columns T) !! j')
      as [[n' c']|] eqn:Hj'; [|done].
    simpl in Hx, Hy. injection Hx as ->. injection Hy as ->.
    destruct (filter_lookup_lt _ _ _ _ _ _ Hlt Hi' Hj')
      as (i0 & j0 & Hlt0 & Hi0 & Hj0).
    destruct Hwf as [_ Hnd].
    assert (i0 = i) as <-.
    { eapply NoDup_lookup; [exact Hnd| |exact Hi].
      unfold column_names. by rewrite list_lookup_fmap, Hi0. }
    assert (j0 = j) as <-; [|done].
    eapply NoDup_lookup; [exact Hnd| |exact Hj].
    unfold column_names. by rewrite list_lookup_fmap, Hj0. }
  exists i, j. split; [lia|]. split; [done|]. split; [done|].
  unfold abs_corr, nancorr.entry.
  rewrite (Nat.max_r i' j'), (Nat.min_l i' j'), (Nat.max_r i j),
    (Nat.min_l i j) by lia.
  by rewrite Hmi, Hmj.
Qed.

Lemma pruned_abs_corr mat' i' j' x y :
  to_numpy_float T' = Ok mat' ->
  i' ≠ j' ->
  column_names T' !! i' = Some x ->
  column_names T' !! j' = Some y ->
  exists i j,
    i ≠ j /\ column_names T !! i = Some x /\ column_names T !! j = Some y /\
    abs_corr mat' i' j' = abs_corr mat i j.
Proof using Hwf Hmat.
  intros Hmat' Hne Hx Hy.
  destruct (decide (i' < j')%nat) as [Hlt|Hge].
  - by apply pruned_abs_corr_lt.
  - destruct (pruned_abs_corr_lt mat' j' i' y x Hmat' ltac:(lia) Hy Hx)
      as (j & i & Hji & Hj & Hi & Hc).
    exists i, j. split; [done|]. split; [done|]. split; [done|].
    by rewrite abs_corr_sym, Hc, abs_corr_sym.
Qed.

End Pruned.

(** X11. Pruning by correlation is idempotent: the columns it retains are not
    correlated at or above the threshold with each other, so on its own
    result, with the same threshold, the function drops nothing. *)
Theorem drop_highly_correlated_variables_idempotent {conv : FloatOfStr} :
  forall (h : heap) (r : ref) (T : DataFrame) (t : float) mat,
    h !! r = Some T ->
    well_formed T ->
    to_numpy_float T = Ok mat ->
    exists T',
      drop_highly_correlated_variables r t h = (Ok (length h), h ++ [T']) /\
      drop_highly_correlated_variables (length h) t (h ++ [T'])
      = (Ok (S (length h)), h ++ [T'; T']).
Proof.
  intros h r T t mat Hr Hwf Hmat. eexists.
  split; [by apply drop_highly_correlated_variables_run|].
  set (labels := elements (high_corr_labels (column_names T) mat t)).
  destruct (pruned_to_numpy_float T mat labels Hmat) as [mat' Hmat'].
  rewrite (drop_highly_correlated_variables_run _ _ _ t mat'
             (lookup_alloc h _) Hmat').
  rewrite length_app, Nat.add_1_r, <-app_assoc. do 4 f_equal.
  apply drop_columns_none. intros nc Hin Hx%elem_of_elements.
  pose proof (drop_columns_well_formed labels T Hwf) as [_ Hnd'].
  apply elem_of_high_corr_labels in Hx
    as (i' & j' & Hne & Hi' & [y Hj'] & Hb);
    [|done|by apply to_numpy_float_length].
  destruct (pruned_abs_corr T mat labels Hwf Hmat mat' i' j' nc.1 y
              Hmat' Hne Hi' Hj') as (i & j & Hij & Hi & Hj & Hc).
  rewrite Hc in Hb.
  apply elem_of_drop_columns in Hin as [_ Hkeep]. apply Hkeep.
  apply elem_of_elements, elem_of_high_corr_labels;
    [by destruct Hwf|by apply to_numpy_float_length|].
  exists i, j. eauto.
Qed.

Lemma drop_highly_correlated_variables_idempotent_witness :
  [example_constant] !! 0%nat = Some example_constant /\
  well_formed example_constant /\
  to_numpy_float (conv := decimal) example_constant
  = Ok [[1; 1; 1]; [1; 2; 3]]%float /\
  exists T',
    drop_highly_correlated_variables (conv := decimal) 0%nat default_threshold
      [example_constant]
    = (Ok 1%nat, [example_constant] ++ [T']) /\
    drop_highly_correlated_variables (conv := decimal) 1%nat default_threshold
      ([example_constant] ++ [T'])
    = (Ok 2%nat, [example_constant] ++ [T'; T']).
Proof.
  split; [reflexivity|]. split; [exact example_constant_well_formed|].
  split; [reflexivity|].
  exact (drop_highly_correlated_variables_idempotent (conv := decimal)
           [example_constant] 0%nat example_constant default_threshold
           [[1; 1; 1]; [1; 2; 3]]%float
           eq_refl example_constant_well_formed eq_refl).
Defined.

(** X12. A larger threshold never drops more: what survives the pruning by
    correlation at [t1] survives it at every [t2 >= t1]. *)
Theorem drop_highly_correlated_variables_monotone {conv : FloatOfStr} :
  forall (h : heap) (r : ref) (T : DataFrame) (t1 t2 : float) mat,
    h !! r = Some T ->
    well_formed T ->
    to_numpy_float T = Ok mat ->
    F64.leb t1 t2 = true ->
    exists T1 T2,
      drop_highly_correlated_variables r t1 h = (Ok (length h), h ++ [T1]) /\
      drop_highly_correlated_variables r t2 h = (Ok (length h), h ++ [T2]) /\
      df_columns T1 `sublist_of` df_columns T2.
Proof.
  intros h r T t1 t2 mat Hr [_ Hnd] Hmat Hle. do 2 eexists.
  split; [by apply drop_highly_correlated_variables_run|].
  split; [by apply drop_highly_correlated_variables_run|].
  simpl. apply filter_sublist_impl. intros nc Hkeep Hx%elem_of_elements.
  apply Hkeep, elem_of_elements.
  pose proof (to_numpy_float_length T mat Hmat) as Hlen.
  apply elem_of_high_corr_labels in Hx as (i & j & Hij & Hi & Hj & Hb);
    [|done|done].
  apply elem_of_high_corr_labels; [done|done|].
  exists i, j. split; [done|]. split; [done|]. split; [done|].
  by apply (geb_leb_trans t1 t2).
Qed.

Lemma drop_highly_correlated_variables_monotone_witness :
  [example_correlated] !! 0%nat = Some example_correlated /\
  well_formed example_correlated /\
  to_numpy_float (conv := decimal) example_correlated
  = Ok [[1; 2; 3; 4]; [2; 4; 6; 8]]%float /\
  F64.leb default_threshold 2%float = true /\
  exists T1 T2,
    drop_highly_correlated_variables (conv := decimal) 0%nat default_threshold
      [example_correlated]
    = (Ok 1%nat, [example_correlated] ++ [T1]) /\
    drop_highly_correlated_variables (conv := decimal) 0%nat 2%float
      [example_correlated]
    = (Ok 1%nat, [example_correlated] ++ [T2]) /\
    df_columns T1 `sublist_of` df_columns T2.
Proof.
  split; [reflexivity|]. split; [exact example_correlated_well_formed|].
  split; [exact example_correlated_mat|]. split; [reflexivity|].
  exact (drop_highly_correlated_variables_monotone (conv := decimal)
           [example_correlated] 0%nat example_correlated
           default_threshold 2%float _
           eq_refl example_correlated_well_formed example_correlated_mat
           eq_refl).
Defined.

(** X13. A column is never dropped on account of its correlation with itself:
    a table with fewer than two columns is returned as it is, for every
    threshold, also one at or below the 1.0 of the diagonal. *)
Theorem drop_highly_correlated_variables_single_column {conv : FloatOfStr} :
  forall (h : heap) (r : ref) (T : DataFrame) (t : float) mat,
    h !! r = Some T ->
    well_formed T ->
    to_numpy_float T = Ok mat ->
    (length (df_columns T) <= 1)%nat ->
    drop_highly_correlated_variables r t h = (Ok (length h), h ++ [T]).
Proof.
  intros h r T t mat Hr [_ Hnd] Hmat Hone.
  rewrite (drop_highly_correlated_variables_run h r T t mat Hr Hmat).
  rewrite drop_columns_none; [done|].
  intros nc _ Hx%elem_of_elements.
  apply elem_of_high_corr_labels in Hx as (i & j & Hij & Hi & [y Hj] & _);
    [|done|by apply to_numpy_float_length].
  apply lookup_lt_Some in Hi, Hj. unfold column_names in Hi, Hj.
  rewrite length_fmap in Hi, Hj. lia.
Qed.

Lemma example_single_well_formed : well_formed example_single.
Proof. compute_done. Qed.

Lemma drop_highly_correlated_variables_single_column_witness :
  [example_single] !! 0%nat = Some example_single /\
  well_formed example_single /\
  to_numpy_float (conv := decimal) example_single = Ok [[1; 2; 3]]%float /\
  (length (df_columns example_single) <= 1)%nat /\
  F64.geb (abs_corr [[1; 2; 3]]%float 0 0) default_threshold = true /\
  drop_highly_correlated_variables (conv := decimal) 0%nat default_threshold
    [example_single]
  = (Ok 1%nat, [example_single] ++ [example_single]).
Proof.
  split; [reflexivity|]. split; [exact example_single_well_formed|].
  split; [reflexivity|]. split; [exact (le_n 1)|]. split; [reflexivity|].
  exact (drop_highly_correlated_variables_single_column (conv := decimal)
           [example_single] 0%nat example_single default_threshold
           [[1; 2; 3]]%float
           eq_refl example_single_well_formed eq_refl (le_n 1)).
Defined.

(** ** Composing the functions *)

Lemma column_to_float_numeric {conv : FloatOfStr} c :
  is_object_or_category c = false -> exists m, column_to_float c = Ok m.
Proof. destruct c; try done; simpl; eauto. Qed.

(** X14. The pipeline split, encode, prune runs through: after the columns
    that [separate_categorical_numerical] reports as categorical are label
    encoded no object or category column is left, so
    [drop_highly_correlated_variables] does not raise on the encoded
    table. *)
Theorem split_encode_prune {conv : FloatOfStr} :
  forall (h : heap) (r : ref) (T : DataFrame) (t : float),
    h !! r = Some T ->
    well_formed T ->
    exists C N E R,
      separate_categorical_numerical r h
      = (Ok (length h, S (length h)), h ++ [C; N]) /\
      label_encode_categorical_variables r (column_names C) (h ++ [C; N])
      = (Ok (S (S (length h))), h ++ [C; N; E]) /\
      Forall (fun nc => is_object_or_category nc.2 = false) (df_columns E) /\
      drop_highly_correlated_variables (S (S (length h))) t (h ++ [C; N; E])
      = (Ok (S (S (S (length h)))), h ++ [C; N; E; R]).
Proof.
  intros h r T t Hr Hwf.
  set (C := select_dtypes true T). set (N := select_dtypes false T).
  assert (length (h ++ [C; N]) = S (S (length h))) as Hlen2
    by (rewrite length_app; simpl; lia).
  destruct (label_encode_run (h ++ [C; N]) r T (column_names C)
              (lookup_old h _ r T Hr) Hwf) as (E & Hrun & _ & HE).
  rewrite Hlen2, <-app_assoc in Hrun. simpl in Hrun.
  assert (Forall (fun nc => is_object_or_category nc.2 = false)
            (df_columns E)) as Hnum.
  { apply Forall_forall. intros nc' [i Hi']%list_elem_of_lookup.
    destruct HE as [_ HE].
    destruct (Forall2_lookup_r _ _ _ _ _ HE Hi') as (nc & Hi & Hn & Hc).
    destruct (decide (nc.1 ∈ column_names C)) as [_|Hnot].
    - by destruct Hc as (codes & _ & [->|(_ & _ & ->)]).
    - rewrite Hc. destruct (is_object_or_category nc.2) eqn:Htext; [|done].
      exfalso. apply Hnot. apply list_elem_of_fmap. exists nc. split; [done|].
      apply list_elem_of_filter. split; [done|].
      by eapply list_elem_of_lookup_2. }
  destruct (all_ok_fmap_intro (fun nc : string * column => column_to_float nc.2)
              (df_columns E)) as [mat Hmat].
  { eapply Forall_impl; [exact Hnum|]. intros nc.
    apply column_to_float_numeric. }
  assert (length (h ++ [C; N; E]) = S (S (S (length h)))) as Hlen3
    by (rewrite length_app; simpl; lia).
  exists C, N, E, (drop_columns
                    (elements (high_corr_labels (column_names E) mat t)) E).
  split; [|split; [exact Hrun|split; [done|]]].
  - unfold separate_categorical_numerical.
    rewrite (bind_run _ _ _ _ _ (select_dtypes_run h r T Hr true)).
    rewrite (bind_run _ _ _ _ _
               (select_dtypes_run (h ++ [select_dtypes true T]) r T
                  (lookup_old h _ r T Hr) false)).
    unfold ret. by rewrite length_app, Nat.add_1_r, <-app_assoc.
  - assert ((h ++ [C; N; E]) !! S (S (length h)) = Some E) as HE'.
    { rewrite lookup_app_r by lia.
      by replace (S (S (length h)) - length h)%nat with 2%nat by lia. }
    rewrite (drop_highly_correlated_variables_run _ _ E t mat HE' Hmat).
    by rewrite Hlen3, <-app_assoc.
Qed.

Lemma split_encode_prune_witness :
  [example_missing] !! 0%nat = Some example_missing /\
  well_formed example_missing /\
  exists C N E R,
    separate_categorical_numerical 0%nat [example_missing]
    = (Ok (1%nat, 2%nat), [example_missing] ++ [C; N]) /\
    label_encode_categorical_variables 0%nat (column_names C)
      ([example_missing] ++ [C; N])
    = (Ok 3%nat, [example_missing] ++ [C; N; E]) /\
    Forall (fun nc => is_object_or_category nc.2 = false) (df_columns E) /\
    drop_highly_correlated_variables (conv := decimal) 3%nat default_threshold
      ([example_missing] ++ [C; N; E])
    = (Ok 4%nat, [example_missing] ++ [C; N; E; R]).
Proof.
  split; [reflexivity|]. split; [exact example_missing_well_formed|].
  exact (split_encode_prune (conv := decimal)
           [example_missing] 0%nat example_missing
           default_threshold eq_refl example_missing_well_formed).
Defined.

Lemma separate_categorical_numerical_run h r T :
  h !! r = Some T ->
  separate_categorical_numerical r h
  = (Ok (length h, S (length h)),
     h ++ [select_dtypes true T; select_dtypes false T]).
Proof.
  intros Hr. unfold separate_categorical_numerical.
  rewrite (bind_run _ _ _ _ _ (select_dtypes_run h r T Hr true)).
  rewrite (bind_run _ _ _ _ _
             (select_dtypes_run (h ++ [select_dtypes true T]) r T
                (lookup_old h _ r T Hr) false)).
  unfold ret. by rewrite length_app, Nat.add_1_r, <-app_assoc.
Qed.

Lemma label_encode_categorical_variables_frame h r T L :
  h !! r = Some T ->
  exists o E,
    label_encode_categorical_variables r L h = (o, h ++ [E]) /\
    forall r', o = Ok r' -> r' = length h.
Proof.
  intros Hr. unfold label_encode_categorical_variables.
  rewrite (bind_run _ _ _ _ _ (copy_run h r T Hr)).
  destruct (encode_loop_frame h L T) as (o & E' & Hloop).
  unfold bind at 1. rewrite Hloop. destruct o as [[]|e].
  - exists (Ok (length h)), E'. split; [done|]. by intros r' [= <-].
  - exists (Raise e), E'. by split.
Qed.

Lemma drop_highly_correlated_variables_frame {conv : FloatOfStr} h r T t :
  h !! r = Some T ->
  (exists e, drop_highly_correlated_variables r t h = (Raise e, h)) \/
  (exists R, drop_highly_correlated_variables r t h
             = (Ok (length h), h ++ [R])).
Proof.
  intros Hr. destruct (to_numpy_float T) as [mat|e] eqn:Hmat.
  - right. eexists. by apply drop_highly_correlated_variables_run.
  - left. exists e.
    unfold drop_highly_correlated_variables, pd_corr_abs. unfold bind at 1.
    by rewrite (bind_run _ _ _ _ _ (deref_run h r T Hr)), Hmat.
Qed.

(** X15. The frames the functions return are new objects: a returned reference
    is not a reference of the caller's heap, so it is not the argument
    either, and the two frames of the split are different objects. *)
Theorem returned_frames_are_new {conv : FloatOfStr} :
  forall (h : heap) (r : ref) (T : DataFrame) (t : float) (L : list string),
    h !! r = Some T ->
    (forall r' h',
        drop_columns_with_high_missing_values r t h = (Ok r', h') ->
        h !! r' = None /\ is_Some (h' !! r')) /\
    (forall c n h',
        separate_categorical_numerical r h = (Ok (c, n), h') ->
        h !! c = None /\ h !! n = None /\ c ≠ n /\
        is_Some (h' !! c) /\ is_Some (h' !! n)) /\
    (forall r' h',
        label_encode_categorical_variables r L h = (Ok r', h') ->
        h !! r' = None /\ is_Some (h' !! r')) /\
    (forall r' h',
        drop_highly_correlated_variables r t h = (Ok r', h') ->
        h !! r' = None /\ is_Some (h' !! r')).
Proof.
  intros h r T t L Hr.
  assert (h !! length h = None) as Hnew by (by apply lookup_ge_None).
  assert (forall E, is_Some ((h ++ [E]) !! length h)) as Halloc
    by (intros E; by rewrite lookup_alloc).
  split; [|split; [|split]].
  - intros r' h'.
    rewrite (drop_columns_with_high_missing_values_run h r T t Hr).
    by intros [= <- <-].
  - intros c n h'. rewrite (separate_categorical_numerical_run h r T Hr).
    intros [= <- <- <-]. split; [done|].
    split; [apply lookup_ge_None; lia|]. split; [lia|].
    split; [by rewrite lookup_app_r, Nat.sub_diag|].
    rewrite lookup_app_r by lia.
    by replace (S (length h) - length h)%nat with 1%nat by lia.
  - intros r' h'.
    destruct (label_encode_categorical_variables_frame h r T L Hr)
      as (o & E & -> & Ho).
    intros [= -> <-]. by rewrite (Ho r' eq_refl).
  - intros r' h'.
    destruct (drop_highly_correlated_variables_frame h r T t Hr)
      as [[e ->]|[R ->]]; [done|].
    by intros [= <- <-].
Qed.

Lemma returned_frames_are_new_witness :
  [example_missing] !! 0%nat = Some example_missing /\
  (forall r' h',
      label_encode_categorical_variables 0%nat ["B"%string] [example_missing]
      = (Ok r', h') ->
      [example_missing] !! r' = None /\ is_Some (h' !! r')).
Proof.
  split; [reflexivity|].
  exact (proj1 (proj2 (proj2
    (returned_frames_are_new (conv := decimal)
       [example_missing] 0%nat example_missing
       default_threshold ["B"%string] eq_refl)))).
Defined.

Lemma select_dtypes_twice b T :
  select_dtypes b (select_dtypes b T) = select_dtypes b T.
Proof.
  unfold select_dtypes. simpl. f_equal. apply filter_all, Forall_forall.
  by intros nc [Hb _]%list_elem_of_filter.
Qed.

Lemma select_dtypes_other b T :
  select_dtypes (negb b) (select_dtypes b T) = mkDataFrame (df_len T) [].
Proof.
  unfold select_dtypes. simpl. f_equal.
  destruct (filter _ (filter _ (df_columns T))) as [|nc l] eqn:Hf; [done|].
  assert (nc ∈ nc :: l) as Hin by left. rewrite <-Hf in Hin.
  apply list_elem_of_filter in Hin as [Hn [Hb _]%list_elem_of_filter].
  rewrite Hb in Hn. by destruct b.
Qed.

(** X16. Splitting a half again changes nothing: the categorical half splits
    into itself and a frame without columns, the numerical half into a
    frame without columns and itself. *)
Theorem separate_categorical_numerical_twice :
  forall (h : heap) (r : ref) (T : DataFrame),
    h !! r = Some T ->
    exists C N,
      separate_categorical_numerical r h
      = (Ok (length h, S (length h)), h ++ [C; N]) /\
      separate_categorical_numerical (length h) (h ++ [C; N])
      = (Ok (S (S (length h)), S (S (S (length h)))),
         h ++ [C; N; C; mkDataFrame (df_len T) []]) /\
      separate_categorical_numerical (S (length h)) (h ++ [C; N])
      = (Ok (S (S (length h)), S (S (S (length h)))),
         h ++ [C; N; mkDataFrame (df_len T) []; N]).
Proof.
  intros h r T Hr.
  exists (select_dtypes true T), (select_dtypes false T).
  assert (length (h ++ [select_dtypes true T; select_dtypes false T])
          = S (S (length h))) as Hlen by (rewrite length_app; simpl; lia).
  split; [by apply separate_categorical_numerical_run|]. split.
  - rewrite (separate_categorical_numerical_run _ _ (select_dtypes true T)).
    + rewrite Hlen, <-app_assoc, select_dtypes_twice.
      change (select_dtypes false (select_dtypes true T))
        with (select_dtypes (negb true) (select_dtypes true T)).
      by rewrite select_dtypes_other.
    + by rewrite lookup_app_r, Nat.sub_diag.
  - rewrite (separate_categorical_numerical_run _ _ (select_dtypes false T)).
    + rewrite Hlen, <-app_assoc, select_dtypes_twice.
      change (select_dtypes true (select_dtypes false T))
        with (select_dtypes (negb false) (select_dtypes false T)).
      by rewrite select_dtypes_other.
    + rewrite lookup_app_r by lia.
      by replace (S (length h) - length h)%nat with 1%nat by lia.
Qed.

Lemma separate_categorical_numerical_twice_witness :
  [example_missing] !! 0%nat = Some example_missing /\
  exists C N,
    separate_categorical_numerical 0%nat [example_missing]
    = (Ok (1%nat, 2%nat), [example_missing] ++ [C; N]) /\
    separate_categorical_numerical 1%nat ([example_missing] ++ [C; N])
    = (Ok (3%nat, 4%nat),
       [example_missing] ++ [C; N; C; mkDataFrame 4 []]) /\
    separate_categorical_numerical 2%nat ([example_missing] ++ [C; N])
    = (Ok (3%nat, 4%nat),
       [example_missing] ++ [C; N; mkDataFrame 4 []; N]).
Proof.
  split; [reflexivity|].
  exact (separate_categorical_numerical_twice
           [example_missing] 0%nat example_missing eq_refl).
Defined.

(** ** Particular thresholds *)

Lemma nan_threshold t p :
  PrimFloat.is_nan t = true -> F64.gtb p t = false /\ F64.geb p t = false.
Proof.
  rewrite F64Facts.is_nan_spec. intros Hnan. unfold F64.gtb, F64.geb.
  rewrite FloatAxioms.ltb_spec, FloatAxioms.leb_spec. unfold SFltb, SFleb.
  by rewrite (SFcompare_nan (Prim2SF t) (Prim2SF p)) by auto.
Qed.

(** X17. With [nan] as threshold neither pruning function drops a column:
    [drop_columns_with_high_missing_values] returns every table as it is,
    [drop_highly_correlated_variables] every well-formed table that
    converts to float64. *)
Theorem nan_threshold_keeps_every_column {conv : FloatOfStr} :
  forall (h : heap) (r : ref) (T : DataFrame) (t : float),
    h !! r = Some T ->
    PrimFloat.is_nan t = true ->
    drop_columns_with_high_missing_values r t h = (Ok (length h), h ++ [T]) /\
    (forall mat,
        well_formed T ->
        to_numpy_float T = Ok mat ->
        drop_highly_correlated_variables r t h = (Ok (length h), h ++ [T])).
Proof.
  intros h r T t Hr Hnan. split.
  - rewrite (drop_columns_with_high_missing_values_run h r T t Hr).
    rewrite drop_columns_none; [done|].
    intros nc _ (c' & _ & Hp)%elem_of_high_missing_labels.
    by rewrite (proj1 (nan_threshold t _ Hnan)) in Hp.
  - intros mat [_ Hnd] Hmat.
    rewrite (drop_highly_correlated_variables_run h r T t mat Hr Hmat).
    rewrite drop_columns_none; [done|].
    intros nc _ Hx%elem_of_elements.
    apply elem_of_high_corr_labels in Hx as (i & j & _ & _ & _ & Hb);
      [|done|by apply to_numpy_float_length].
    by rewrite (proj2 (nan_threshold t _ Hnan)) in Hb.
Qed.

Lemma nan_threshold_keeps_every_column_witness :
  PrimFloat.is_nan PrimFloat.nan = true /\
  [example_missing] !! 0%nat = Some example_missing /\
  drop_columns_with_high_missing_values 0%nat PrimFloat.nan [example_missing]
  = (Ok 1%nat, [example_missing] ++ [example_missing]) /\
  [example_correlated] !! 0%nat = Some example_correlated /\
  well_formed example_correlated /\
  to_numpy_float (conv := decimal) example_correlated
  = Ok [[1; 2; 3; 4]; [2; 4; 6; 8]]%float /\
  drop_highly_correlated_variables (conv := decimal) 0%nat PrimFloat.nan
    [example_correlated]
  = (Ok 1%nat, [example_correlated] ++ [example_correlated]).
Proof.
  split; [reflexivity|]. split; [reflexivity|].
  split.
  { exact (proj1 (nan_threshold_keeps_every_column (conv := decimal)
                    [example_missing] 0%nat example_missing PrimFloat.nan
                    eq_refl eq_refl)). }
  split; [reflexivity|]. split; [exact example_correlated_well_formed|].
  split; [exact example_correlated_mat|].
  exact (proj2 (nan_threshold_keeps_every_column (conv := decimal)
                  [example_correlated] 0%nat example_correlated PrimFloat.nan
                  eq_refl eq_refl)
           _ example_correlated_well_formed example_correlated_mat).
Defined.

(** The percentages of all counts in all tables of at most 142 rows,
    against the default threshold, by evaluation. *)
Lemma small_percentages_above_default :
  forallb (fun n =>
             forallb (fun k =>
                        F64.gtb (percent_of (Z.of_nat k) (Z.of_nat n))
                          default_threshold)
                     (seq 1 n))
          (seq 1 142) = true.
Proof. by vm_compute. Qed.

Lemma zero_percentage_not_above_default :
  forallb (fun n =>
             negb (F64.gtb (percent_of 0 (Z.of_nat n)) default_threshold))
          (seq 0 143) = true.
Proof. by vm_compute. Qed.

Lemma default_threshold_small (k n : nat) :
  (k <= n <= 142)%nat ->
  F64.gtb (percent_of (Z.of_nat k) (Z.of_nat n)) default_threshold = true
  <-> (0 < k)%nat.
Proof.
  intros Hkn. destruct k as [|k].
  - pose proof zero_percentage_not_above_default as Hz.
    rewrite List.forallb_forall in Hz.
    specialize (Hz n ltac:(apply List.in_seq; lia)).
    apply negb_true_iff in Hz. change (Z.of_nat 0) with 0. rewrite Hz.
    split; [done|lia].
  - pose proof small_percentages_above_default as Hs.
    rewrite List.forallb_forall in Hs.
    specialize (Hs n ltac:(apply List.in_seq; lia)).
    rewrite List.forallb_forall in Hs.
    specialize (Hs (S k) ltac:(apply List.in_seq; lia)).
    split; [lia|done].
Qed.

Lemma not_elem_of_high_missing_labels T t n c :
  well_formed T -> (n, c) ∈ df_columns T ->
  n ∉ high_missing_labels T t
  <-> F64.gtb (missing_percentage T c) t = false.
Proof.
  intros [_ Hnd] Hin. rewrite elem_of_high_missing_labels. split.
  - intros Hnot. destruct (F64.gtb (missing_percentage T c) t) eqn:Hp; [|done].
    exfalso. apply Hnot. eauto.
  - intros Hp (c' & Hin' & Hp').
    rewrite (NoDup_names_inj _ _ _ _ Hnd Hin Hin') in Hp. congruence.
Qed.

(** X18. The default threshold 0.7 is compared with a percentage: on a table of
    at most 142 rows the default call drops exactly the columns that have
    a missing cell, one cell being more than 0.7 percent of the rows, so
    [find_missing_values] finds nothing in the result.  One missing cell in
    143 rows is below 0.7 percent. *)
Theorem default_threshold_drops_every_missing :
  (forall (h : heap) (r : ref) (T : DataFrame),
      h !! r = Some T ->
      well_formed T ->
      (df_len T <= 142)%nat ->
      exists T',
        drop_columns_with_high_missing_values r default_threshold h
        = (Ok (length h), h ++ [T']) /\
        df_columns T'
        = filter (fun nc => true ∉ isnull nc.2) (df_columns T) /\
        find_missing_values (length h) (h ++ [T'])
        = (Ok (Message "There are no missing values in the DataFrame."),
           h ++ [T'])) /\
  F64.gtb (percent_of 1 143) default_threshold = false.
Proof.
  split; [|reflexivity].
  intros h r T Hr Hwf Hrows. eexists.
  split; [by apply drop_columns_with_high_missing_values_run|].
  assert (df_columns (drop_columns (high_missing_labels T default_threshold) T)
          = filter (fun nc => true ∉ isnull nc.2) (df_columns T)) as Hcols.
  { simpl. apply filter_ext_elem. intros [n c] Hin. simpl.
    rewrite (not_elem_of_high_missing_labels T _ n c Hwf Hin).
    rewrite <-missing_count_pos.
    unfold missing_percentage, missing_count.
    set (k := length (filter (fun b => b = true) (isnull c))).
    assert (k <= df_len T)%nat as Hk.
    { destruct Hwf as [Hlen _]. rewrite Forall_forall in Hlen.
      pose proof (missing_count_le c) as Hle. unfold missing_count in Hle.
      fold k in Hle. pose proof (Hlen (n, c) Hin) as Hc. simpl in Hc. lia. }
    pose proof (default_threshold_small k (df_len T) ltac:(lia)) as Hd.
    destruct (F64.gtb _ default_threshold) eqn:Hg.
    - assert (0 < k)%nat by (by apply Hd). split; [done|]. intros Hnot.
      exfalso. apply Hnot. lia.
    - split; [|done]. intros _ Hpos.
      assert (0 < k)%nat as Hk0 by lia. by apply Hd in Hk0. }
  split; [exact Hcols|].
  apply (find_missing_values_none _ _ _ (lookup_alloc h _)).
  intros (nc & Hin & Hm). rewrite Hcols in Hin.
  by apply list_elem_of_filter in Hin as [Hnone _].
Qed.

Lemma default_threshold_drops_every_missing_witness :
  [example_missing] !! 0%nat = Some example_missing /\
  well_formed example_missing /\
  (df_len example_missing <= 142)%nat /\
  exists T',
    drop_columns_with_high_missing_values 0%nat default_threshold
      [example_missing]
    = (Ok 1%nat, [example_missing] ++ [T']) /\
    df_columns T'
    = [("B"%string, Object [Some "x"; Some "y"; Some "x"; Some "z"]%string)].
Proof.
  split; [reflexivity|]. split; [exact example_missing_well_formed|].
  split; [simpl; lia|].
  destruct (proj1 default_threshold_drops_every_missing
              [example_missing] 0%nat example_missing
              eq_refl example_missing_well_formed ltac:(simpl; lia))
    as (T' & Hrun & Hcols & _).
  exists T'. split; [exact Hrun|]. rewrite Hcols. reflexivity.
Defined.
